(** * Patient intake and triage (multi.py): a shallow embedding

    The development follows the layout of the Python module:
    - [PyStr]: the [str] operations the module relies on ([lower], [upper],
      [title], [strip], [isdigit], [int], the [in] substring test);
    - [Triage]: [assess_urgency] and [determine_specialty];
    - the regular expressions and [extract_patient_details];
    - the patient store (sqlite table [patients]), the notification mail
      and [save_patient_to_database] / [get_all_patients].

    Python [str] values are modelled by [string], read as the UTF-8 bytes of
    the text: a character is a byte that starts one together with the bytes
    that continue it, so [len] and slices count characters.  What [lower],
    [isdigit] and [int] do to a text outside ASCII is written in the
    Unicode tables and the settings of the interpreter; the classifiers
    take these three as [str_methods], of which only their behaviour on
    ASCII text is assumed.  The patterns of [re] are modelled on ASCII
    transcripts, and the labels and department names that are titled or
    put in capitals are ASCII identifiers. *)

From Stdlib Require Import Strings.String Strings.Ascii Numbers.DecimalString.
From Stdlib Require Import NArith ZArith Lia Bool List.
From Stdlib Require Import Sorting.Sorted Sorting.Permutation.
From stdpp Require Import base gmap strings list.
Import ListNotations.

Open Scope string_scope.

(** [simpl] unfolds [++] on strings when its first argument starts with a
    constructor, as it does for lists. *)
#[global] Arguments String.append !s1 s2 : simpl nomatch.

(** ** Python [str] primitives *)
Module PyStr.

Definition code (c : ascii) : N := N_of_ascii c.

Definition in_range (lo hi : N) (c : ascii) : bool :=
  ((lo <=? code c) && (code c <=? hi))%N.

Definition is_upper_char (c : ascii) : bool := in_range 65 90 c.
Definition is_lower_char (c : ascii) : bool := in_range 97 122 c.
Definition is_alpha_char (c : ascii) : bool := is_upper_char c || is_lower_char c.
Definition is_digit_char (c : ascii) : bool := in_range 48 57 c.

(** [str.isspace] on one character: TAB..CR, FS..US and the blank. *)
Definition is_space_char (c : ascii) : bool :=
  in_range 9 13 c || in_range 28 32 c.

(** [\w] of the [re] module: letters, digits and the underscore. *)
Definition is_word_char (c : ascii) : bool :=
  is_alpha_char c || is_digit_char c || (code c =? 95)%N.

Definition lower_char (c : ascii) : ascii :=
  if is_upper_char c then ascii_of_N (code c + 32) else c.

Definition upper_char (c : ascii) : ascii :=
  if is_lower_char c then ascii_of_N (code c - 32) else c.

Fixpoint map_chars (f : ascii -> ascii) (s : string) : string :=
  match s with
  | EmptyString => EmptyString
  | String c rest => String (f c) (map_chars f rest)
  end.

(** [s.lower()] and [s.upper()] on ASCII text. *)
Definition lower (s : string) : string := map_chars lower_char s.
Definition upper (s : string) : string := map_chars upper_char s.

(** [s.title()] on ASCII text: a letter that follows a letter is lowered,
    a letter that starts a word is raised; anything else is kept and ends
    the word. *)
Fixpoint title_from (previous_is_cased : bool) (s : string) : string :=
  match s with
  | EmptyString => EmptyString
  | String c rest =>
      if is_alpha_char c
      then String (if previous_is_cased then lower_char c else upper_char c)
                  (title_from true rest)
      else String c (title_from false rest)
  end.

Definition title (s : string) : string := title_from false s.

(** [s.strip()]. *)
Fixpoint lstrip (s : string) : string :=
  match s with
  | String c rest => if is_space_char c then lstrip rest else s
  | EmptyString => EmptyString
  end.

Fixpoint rstrip (s : string) : string :=
  match s with
  | EmptyString => EmptyString
  | String c rest =>
      match rstrip rest with
      | EmptyString => if is_space_char c then EmptyString else String c EmptyString
      | kept => String c kept
      end
  end.

Definition strip (s : string) : string := rstrip (lstrip s).

(** Truth value of an optional string: [None] and [""] are false. *)
Definition truthy (v : option string) : bool :=
  match v with
  | Some s => negb (s =? "")
  | None => false
  end.

(** [a or b] on an optional string with a string default. *)
Definition or_else (v : option string) (dflt : string) : string :=
  if truthy v then default "" v else dflt.

(** [sub in s]. *)
Fixpoint contains (sub s : string) : bool :=
  String.prefix sub s ||
  match s with
  | EmptyString => false
  | String _ rest => contains sub rest
  end.

Fixpoint all_chars (p : ascii -> bool) (s : string) : bool :=
  match s with
  | EmptyString => true
  | String c rest => p c && all_chars p rest
  end.

(** [s.isascii()] *)
Definition is_ascii_char (c : ascii) : bool := (code c <? 128)%N.

Definition isascii (s : string) : bool := all_chars is_ascii_char s.

(** A byte that continues a character of several bytes. *)
Definition is_continuation (c : ascii) : bool := in_range 128 191 c.

(** [len(s)]: one for every byte that starts a character. *)
Fixpoint len (s : string) : nat :=
  match s with
  | EmptyString => 0
  | String c rest => (if is_continuation c then 0 else 1) + len rest
  end.

(** [s[:n]]: the first [n] characters, each with all its bytes. *)
Fixpoint take (n : nat) (s : string) : string :=
  match s with
  | EmptyString => EmptyString
  | String c rest =>
      if is_continuation c then String c (take n rest)
      else
        match n with
        | O => EmptyString
        | S n' => String c (take n' rest)
        end
  end.

(** An ASCII numeral: at least one character, all of them digits [0]-[9]. *)
Definition all_digits (s : string) : bool :=
  negb (s =? "") && all_chars is_digit_char s.

Definition digit_value (c : ascii) : N := (code c - 48)%N.

Fixpoint int_from (acc : N) (s : string) : N :=
  match s with
  | EmptyString => acc
  | String c rest => int_from (10 * acc + digit_value c)%N rest
  end.

(** The number an ASCII numeral stands for. *)
Definition decimal (s : string) : N := int_from 0%N s.

(** [s.lower()], [s.isdigit()] and [int(s)] as the interpreter has them.
    [int_of_str s] is [None] when [int(s)] raises [ValueError]: on a text
    that is no numeral ([isdigit] accepts some, a superscript two for one),
    and on a numeral with more digits than the interpreter converts. *)
Record str_methods : Type := {
  str_lower : string -> string;
  str_isdigit : string -> bool;
  int_of_str : string -> option N
}.

(** What is known of them whatever the tables and the settings: on ASCII
    text [lower] and [isdigit] are the ASCII operations, and [int] reads an
    ASCII numeral of up to 640 digits (no setting of
    [sys.set_int_max_str_digits] refuses fewer). *)
Record on_ascii (U : str_methods) : Prop := {
  lower_on_ascii : forall s, isascii s = true -> str_lower U s = lower s;
  isdigit_on_ascii : forall s, isascii s = true -> str_isdigit U s = all_digits s;
  int_on_ascii :
    forall s, all_digits s = true -> String.length s <= 640 ->
              int_of_str U s = Some (decimal s)
}.

End PyStr.

(** ** Urgency and specialty classification *)
Module Triage.
Import PyStr.

Definition critical_keywords : list string :=
  ["chest pain"; "heart attack"; "stroke"; "bleeding"; "unconscious";
   "difficulty breathing"; "severe pain"; "poisoning"; "overdose"; "suicide";
   "severe injury"; "broken bone"; "head injury"].

Definition high_keywords : list string :=
  ["fever"; "infection"; "rash"; "severe headache"; "nausea"; "vomiting";
   "dizzy"; "swelling"; "shortness of breath"].

Definition emergency_keywords : list string :=
  ["chest pain"; "heart attack"; "stroke"; "bleeding"; "unconscious";
   "difficulty breathing"; "severe pain"; "poisoning"; "overdose"; "suicide";
   "severe injury"].

Definition cardiology_keywords : list string :=
  ["heart"; "cardiac"; "chest pain"; "palpitations"; "blood pressure";
   "cholesterol"; "arrhythmia"; "angina"].

Definition dermatology_keywords : list string :=
  ["skin"; "rash"; "acne"; "mole"; "eczema"; "psoriasis"; "dermatitis";
   "itching"; "burning skin"].

Definition orthopedics_keywords : list string :=
  ["bone"; "joint"; "back pain"; "knee"; "shoulder"; "hip"; "fracture";
   "sprain"; "arthritis"; "muscle pain"].

Definition mental_health_keywords : list string :=
  ["depression"; "anxiety"; "stress"; "panic"; "mental health"; "counseling";
   "therapy"; "mood"; "psychiatric"].

Definition gynecology_keywords : list string :=
  ["pregnancy"; "menstrual"; "gynecological"; "contraception"; "pap smear";
   "mammogram"; "breast"].

(** [for keyword in keywords: if keyword in text: return ...]: the loop
    leaves at the first keyword found; [false] when it runs to its end. *)
Fixpoint any_keyword_in (keywords : list string) (text : string) : bool :=
  match keywords with
  | [] => false
  | keyword :: rest =>
      if contains keyword text then true else any_keyword_in rest text
  end.

Definition assess_urgency (U : str_methods)
    (symptoms : option string) (age medical_history : option string) : string :=
  if negb (truthy symptoms) then "medium"
  else
    let symptoms_lower := str_lower U (default "" symptoms) in
    if any_keyword_in critical_keywords symptoms_lower then "critical"
    else if any_keyword_in high_keywords symptoms_lower then "high"
    else "medium".

(** The exception [determine_specialty] can leave with: the [ValueError] of
    [int(age)]. *)
Inductive error : Type := ValueError.

(** [if age and age.isdigit() and int(age) < 18]: the three tests in their
    order; [int] is reached only after [isdigit] said yes. *)
Definition age_below_18 (U : str_methods) (age : option string) : error + bool :=
  if truthy age && str_isdigit U (default "" age) then
    match int_of_str U (default "" age) with
    | Some years => inr (years <? 18)%N
    | None => inl ValueError
    end
  else inr false.

Definition determine_specialty (U : str_methods)
    (symptoms : option string) (age : option string) : error + string :=
  if negb (truthy symptoms) then inr "general"
  else
    let symptoms_lower := str_lower U (default "" symptoms) in
    if any_keyword_in emergency_keywords symptoms_lower then inr "emergency"
    else if any_keyword_in cardiology_keywords symptoms_lower then inr "cardiology"
    else if any_keyword_in dermatology_keywords symptoms_lower then inr "dermatology"
    else if any_keyword_in orthopedics_keywords symptoms_lower then inr "orthopedics"
    else if any_keyword_in mental_health_keywords symptoms_lower then inr "mental_health"
    else
      match age_below_18 U age with
      | inl e => inl e
      | inr true => inr "pediatrics"
      | inr false =>
          if any_keyword_in gynecology_keywords symptoms_lower then inr "gynecology"
          else inr "general"
      end.

End Triage.

(** ** Regular expressions of the [re] module, as far as the module uses them

    Every quantifier of the module's patterns applies to a single character
    or character class, so a pattern is a sequence of such repetitions,
    word boundaries, and the two marks of capturing group 1.  Matching is
    the backtracking search of [re]: leftmost start, greedy repetitions.
    The classes [\w], [\s], [\d], the boundary [\b] and the folding of
    [re.IGNORECASE] are given for ASCII transcripts, on which they do not
    depend on the Unicode tables. *)
Module Re.
Import PyStr.

(** A member of a character class. *)
Inductive atom : Type :=
  | Range (lo hi : ascii)
  | Word
  | Space
  | Digit.

Inductive node : Type :=
  | Boundary
  | Repeat (class : list atom) (lo : nat) (hi : option nat)
  | GroupOpen
  | GroupClose.

Definition pattern : Type := list node.

(** The text left to read when group 1 opened and when it closed. *)
Record captures : Type := { opened : option string; closed : option string }.

Record match_result : Type := { group0 : string; group1 : string }.

Definition no_captures : captures := {| opened := None; closed := None |}.

Definition atom_matches (ignorecase : bool) (a : atom) (c : ascii) : bool :=
  match a with
  | Range lo hi =>
      in_range (code lo) (code hi) c ||
      (ignorecase &&
       (in_range (code lo) (code hi) (lower_char c) ||
        in_range (code lo) (code hi) (upper_char c)))
  | Word => is_word_char c
  | Space => is_space_char c
  | Digit => is_digit_char c
  end.

Definition class_matches (ignorecase : bool) (class : list atom) (c : ascii) : bool :=
  existsb (fun a => atom_matches ignorecase a c) class.

(** [\b]: exactly one of the two neighbours is a word character. *)
Definition at_boundary (previous : option ascii) (s : string) : bool :=
  xorb
    (match previous with Some c => is_word_char c | None => false end)
    (match s with String c _ => is_word_char c | EmptyString => false end).

Definition may_take (hi : option nat) : bool :=
  match hi with Some O => false | _ => true end.

Definition stop_here {R : Type} (lo : nat) (previous : option ascii) (s : string)
    (k : option ascii -> string -> option R) : option R :=
  match lo with
  | O => k previous s
  | S _ => None
  end.

(** Greedy [class{lo,hi}] followed by the continuation [k]: one more
    character is tried first; the repetition ends here only when that fails
    and [lo] characters were taken. *)
Fixpoint repeat_greedy {R : Type} (ignorecase : bool) (class : list atom)
    (lo : nat) (hi : option nat) (previous : option ascii) (s : string)
    (k : option ascii -> string -> option R) : option R :=
  match s with
  | String c rest =>
      if class_matches ignorecase class c && may_take hi
      then
        match repeat_greedy ignorecase class (Nat.pred lo) (option_map Nat.pred hi)
                (Some c) rest k with
        | Some r => Some r
        | None => stop_here lo previous s k
        end
      else stop_here lo previous s k
  | EmptyString => stop_here lo previous s k
  end.

Fixpoint match_nodes (ignorecase : bool) (p : pattern) (caps : captures)
    (previous : option ascii) (s : string) : option (string * captures) :=
  match p with
  | [] => Some (s, caps)
  | Boundary :: p' =>
      if at_boundary previous s then match_nodes ignorecase p' caps previous s
      else None
  | Repeat class lo hi :: p' =>
      repeat_greedy ignorecase class lo hi previous s
        (fun previous' s' => match_nodes ignorecase p' caps previous' s')
  | GroupOpen :: p' =>
      match_nodes ignorecase p' {| opened := Some s; closed := closed caps |} previous s
  | GroupClose :: p' =>
      match_nodes ignorecase p' {| opened := opened caps; closed := Some s |} previous s
  end.

(** The text read between two positions given by what was left to read. *)
Definition consumed (from rest : string) : string :=
  String.substring 0 (String.length from - String.length rest) from.

Definition result_of (s rest : string) (caps : captures) : match_result :=
  {| group0 := consumed s rest;
     group1 := match opened caps, closed caps with
               | Some o, Some c => consumed o c
               | _, _ => ""
               end |}.

(** [re.search]: the first position, from the left, where the pattern
    matches (the end of the text is a position too). *)
Fixpoint search_from (ignorecase : bool) (p : pattern)
    (previous : option ascii) (s : string) : option match_result :=
  match match_nodes ignorecase p no_captures previous s with
  | Some (rest, caps) => Some (result_of s rest caps)
  | None =>
      match s with
      | String c s' => search_from ignorecase p (Some c) s'
      | EmptyString => None
      end
  end.

Definition search (ignorecase : bool) (p : pattern) (text : string) : option match_result :=
  search_from ignorecase p None text.

(** Pattern syntax. *)
Definition chr (c : ascii) : node := Repeat [Range c c] 1 (Some 1).
Definition lit (s : string) : pattern := map chr (list_ascii_of_string s).
Definition plus (class : list atom) : node := Repeat class 1 None.
Definition star (class : list atom) : node := Repeat class 0 None.
Definition opt (class : list atom) : node := Repeat class 0 (Some 1).
Definition times (n : nat) (class : list atom) : node := Repeat class n (Some n).
Definition at_least (n : nat) (class : list atom) : node := Repeat class n None.
Definition one (c : ascii) : atom := Range c c.

End Re.

(** ** Entity extraction *)
Module Extract.
Import PyStr Re.

(** [(\w+)] *)
Definition word_group : pattern := [GroupOpen; plus [Word]; GroupClose].

(** [I'm\s+(\w+)], [I am\s+(\w+)], [name\s+is\s+(\w+)], [this\s+is\s+(\w+)] *)
Definition name_patterns : list pattern :=
  [ lit "I'm" ++ [plus [Space]] ++ word_group;
    lit "I am" ++ [plus [Space]] ++ word_group;
    lit "name" ++ [plus [Space]] ++ lit "is" ++ [plus [Space]] ++ word_group;
    lit "this" ++ [plus [Space]] ++ lit "is" ++ [plus [Space]] ++ word_group ]%list.

Definition alnum : list atom := [Range "A" "Z"; Range "a" "z"; Range "0" "9"]%char.

(** [\b[A-Za-z0-9._%+-]+@[A-Za-z0-9.-]+\.[A-Z|a-z]{2,}\b] *)
Definition email_pattern : pattern :=
  [ Boundary;
    plus (alnum ++ [one "."; one "_"; one "%"; one "+"; one "-"])%char%list;
    chr "@";
    plus (alnum ++ [one "."; one "-"])%char%list;
    chr ".";
    at_least 2 [Range "A" "Z"; one "|"; Range "a" "z"]%char;
    Boundary ]%char.

Definition separator : list atom := [one "-"; one "."; Space]%char.

(** [\b\d{3}[-.\s]?\d{3}[-.\s]?\d{4}\b] and
    [\b\(\d{3}\)\s*\d{3}[-.\s]?\d{4}\b] *)
Definition phone_patterns : list pattern :=
  [ [ Boundary; times 3 [Digit]; opt separator; times 3 [Digit]; opt separator;
      times 4 [Digit]; Boundary ];
    [ Boundary; chr "("; times 3 [Digit]; chr ")"; star [Space]; times 3 [Digit];
      opt separator; times 4 [Digit]; Boundary ]%char ].

(** [for pattern in patterns: match = re.search(...); if match: ...; break] *)
Fixpoint first_search (ignorecase : bool) (patterns : list pattern) (text : string)
    : option match_result :=
  match patterns with
  | [] => None
  | p :: rest =>
      match search ignorecase p text with
      | Some m => Some m
      | None => first_search ignorecase rest text
      end
  end.

(** The dictionary both return statements start from. *)
Definition default_details : gmap string string :=
  <["name" := "Unknown"]> (<["age" := ""]> (<["gender" := ""]> (<["phone" := ""]>
  (<["email" := ""]> (<["insurance" := ""]> (<["symptoms" := ""]>
  (<["medical_history" := ""]> ∅))))))).

Definition extract_patient_details (conversation_history : string) : gmap string string :=
  if negb (truthy (Some conversation_history)) then default_details
  else
    let details := default_details in
    let details :=
      match first_search true name_patterns conversation_history with
      | Some m => <["name" := strip (group1 m)]> details
      | None => details
      end in
    let details :=
      match search false email_pattern conversation_history with
      | Some m => <["email" := strip (group0 m)]> details
      | None => details
      end in
    let details :=
      match first_search false phone_patterns conversation_history with
      | Some m => <["phone" := strip (group0 m)]> details
      | None => details
      end in
    details.

End Extract.

(** ** The environment of the module: configuration, store, clock, mail *)
Module Clinic.
Import PyStr.

(** The settings read from the process environment when the module loads. *)
Record config : Type := {
  EMAIL_USER : option string;
  EMAIL_APP_PASSWORD : option string;
  DB_FILE : string
}.

(** [EMAIL_ENABLED = EMAIL_USER and EMAIL_APP_PASSWORD], as a truth value. *)
Definition EMAIL_ENABLED (cfg : config) : bool :=
  truthy (EMAIL_USER cfg) && truthy (EMAIL_APP_PASSWORD cfg).

(** A row of the table [patients]. *)
Record patient : Type := {
  id : Z;
  timestamp : string;
  name : string;
  age : string;
  gender : string;
  phone : string;
  email : string;
  insurance : string;
  symptoms : string;
  medical_history : string;
  specialty : string;
  urgency : string;
  status : string
}.

(** The sqlite file.  [Unusable reason]: it cannot be opened, so
    [sqlite3.connect] raises with the reason.  [NoTable]: it can be
    written and holds no table [patients] yet.  [Patients rows sequence]:
    it can be written and holds the table, with its rows in insertion
    order and the largest id ever given (the AUTOINCREMENT counter of
    [sqlite_sequence]).  [ReadOnly table]: it can be read and not written;
    it holds the table with these rows, or no table.  [Corrupt reason]: it
    opens, and every statement raises with the reason (a file that is not
    a database). *)
Inductive database : Type :=
  | Unusable (reason : string)
  | NoTable
  | Patients (rows : list patient) (sequence : Z)
  | ReadOnly (table : option (list patient))
  | Corrupt (reason : string).

(** A message handed to [send_email_message]. *)
Record mail : Type := {
  mail_to : string;
  mail_subject : string;
  mail_body : string;
  mail_cc : option string
}.

(** The state the functions act on.  [clock n] is what the [n]-th reading
    of [datetime.now()] prints under ["%Y-%m-%d %H:%M:%S"]; [smtp m] is
    [Some reason] when the SMTP session for [m] raises.  [requested] lists
    the calls of [send_email_message] and [delivered] the messages the
    server took, both oldest first. *)
Record world : Type := {
  db : database;
  system_logs : list string;
  ticks : nat;
  clock : nat -> string;
  smtp : mail -> option string;
  requested : list mail;
  delivered : list mail
}.

Definition with_db (d : database) (w : world) : world :=
  {| db := d; system_logs := system_logs w; ticks := ticks w; clock := clock w;
     smtp := smtp w; requested := requested w; delivered := delivered w |}.

Definition with_logs (l : list string) (w : world) : world :=
  {| db := db w; system_logs := l; ticks := ticks w; clock := clock w;
     smtp := smtp w; requested := requested w; delivered := delivered w |}.

Definition with_ticks (n : nat) (w : world) : world :=
  {| db := db w; system_logs := system_logs w; ticks := n; clock := clock w;
     smtp := smtp w; requested := requested w; delivered := delivered w |}.

Definition with_requested (l : list mail) (w : world) : world :=
  {| db := db w; system_logs := system_logs w; ticks := ticks w; clock := clock w;
     smtp := smtp w; requested := l; delivered := delivered w |}.

Definition with_delivered (l : list mail) (w : world) : world :=
  {| db := db w; system_logs := system_logs w; ticks := ticks w; clock := clock w;
     smtp := smtp w; requested := requested w; delivered := l |}.

(** [datetime.now().strftime("%Y-%m-%d %H:%M:%S")] *)
Definition now (w : world) : string * world :=
  (clock w (ticks w), with_ticks (S (ticks w)) w).

(** ["%H:%M:%S"] is the tail of the long format, after the date and a blank. *)
Definition hms (full : string) : string :=
  String.substring 11 (String.length full - 11) full.

Definition log_system_message (message : string) (w : world) : world :=
  let '(stamp, w) := now w in
  let entry := "[" ++ hms stamp ++ "] " ++ message in
  with_logs (system_logs w ++ [entry])%list w.

(** [str(n)] for a count. *)
Definition str_of_nat (n : nat) : string :=
  NilZero.string_of_uint (Nat.to_uint n).

(** *** The store *)

Definition no_such_table : string := "no such table: patients".
Definition read_only : string := "attempt to write a readonly database".

(** [sqlite3.connect(DB_FILE)]: the text of the exception, if it raises. *)
Definition connect (d : database) : option string :=
  match d with
  | Unusable reason => Some reason
  | _ => None
  end.

(** [CREATE TABLE IF NOT EXISTS patients (...)] after [connect]: where the
    table exists nothing is written. *)
Definition create_table (d : database) : string + database :=
  match d with
  | Unusable reason => inl reason
  | NoTable => inr (Patients [] 0)
  | Patients rows sequence => inr d
  | ReadOnly (Some rows) => inr d
  | ReadOnly None => inl read_only
  | Corrupt reason => inl reason
  end.

Definition largest_id (rows : list patient) : Z :=
  fold_right (fun r acc => Z.max (id r) acc) 0%Z rows.

(** The id of the next row of an AUTOINCREMENT key: one more than every id
    the table holds or ever gave. *)
Definition next_id (rows : list patient) (sequence : Z) : Z :=
  (Z.max sequence (largest_id rows) + 1)%Z.

(** [INSERT INTO patients (timestamp, name, ..., urgency) VALUES (...)]
    after [connect]; [id] and [status] take their column defaults. *)
Definition insert_patient
    (timestamp name age gender phone email insurance symptoms medical_history
       specialty urgency : string)
    (d : database) : string + database :=
  match d with
  | Unusable reason => inl reason
  | NoTable => inl no_such_table
  | Patients rows sequence =>
      let new_id := next_id rows sequence in
      inr (Patients
             (rows ++ [ {| id := new_id; timestamp := timestamp; name := name;
                           age := age; gender := gender; phone := phone;
                           email := email; insurance := insurance;
                           symptoms := symptoms;
                           medical_history := medical_history;
                           specialty := specialty; urgency := urgency;
                           status := "pending" |} ])%list
             new_id)
  | ReadOnly (Some rows) => inl read_only
  | ReadOnly None => inl no_such_table
  | Corrupt reason => inl reason
  end.

(** [ORDER BY timestamp DESC]: text comparison of the column, largest
    first; rows with equal stamps keep their insertion order. *)
Fixpoint insert_newest_first (r : patient) (sorted : list patient) : list patient :=
  match sorted with
  | [] => [r]
  | r' :: rest =>
      if String.leb (timestamp r') (timestamp r) then r :: r' :: rest
      else r' :: insert_newest_first r rest
  end.

Definition newest_first (rows : list patient) : list patient :=
  fold_right insert_newest_first [] rows.

Definition select_statement : string :=
  "SELECT * FROM patients ORDER BY timestamp DESC".

(** The statement run on a file that opened. *)
Definition select_all (d : database) : string + list patient :=
  match d with
  | Unusable reason | Corrupt reason => inl reason
  | NoTable | ReadOnly None => inl no_such_table
  | Patients rows _ | ReadOnly (Some rows) => inr (newest_first rows)
  end.

(** [pd.read_sql_query(statement, conn)]: an error of the statement is
    raised again by pandas under its own text. *)
Definition read_sql_query (d : database) : string + list patient :=
  match select_all d with
  | inl e => inl ("Execution failed on sql '" ++ select_statement ++ "': " ++ e)
  | inr rows => inr rows
  end.

(** [conn = sqlite3.connect(DB_FILE); df = pd.read_sql_query(..., conn)] *)
Definition read_patients (d : database) : string + list patient :=
  match connect d with
  | Some e => inl e
  | None => read_sql_query d
  end.

Definition init_database (cfg : config) (w : world) : bool * world :=
  match create_table (db w) with
  | inr d =>
      let w := with_db d w in
      let w := log_system_message ("DATABASE: Connected to " ++ DB_FILE cfg) w in
      (true, w)
  | inl e =>
      let w := log_system_message ("DATABASE ERROR: Failed to initialize - " ++ e) w in
      (false, w)
  end.

Definition get_all_patients (w : world) : list patient * world :=
  let w := log_system_message "DATABASE: Retrieving all patient records" w in
  match read_patients (db w) with
  | inr df =>
      let w := log_system_message
                 ("DATABASE: Retrieved " ++ str_of_nat (length df) ++ " patient records") w in
      (df, w)
  | inl e =>
      let w := log_system_message ("DATABASE ERROR: " ++ e) w in
      ([], w)
  end.

(** *** The notification mail *)

Definition send_email_message (cfg : config)
    (to_email subject body : string) (cc : option string) (log_prefix : string)
    (w : world) : string * world :=
  let m := {| mail_to := to_email; mail_subject := subject; mail_body := body;
              mail_cc := cc |} in
  let w := with_requested (requested w ++ [m])%list w in
  let w := log_system_message
             (log_prefix ++ ": Sending to " ++ to_email ++ " - " ++ subject) w in
  if negb (EMAIL_ENABLED cfg) then
    let message := "Email disabled. Would send to " ++ to_email ++ ": " ++ subject in
    let w := log_system_message message w in
    (message, w)
  else
    match smtp w m with
    | None =>
        let w := with_delivered (delivered w ++ [m])%list w in
        let success_msg := "Email sent successfully to " ++ to_email in
        let w := log_system_message (log_prefix ++ ": ✅ " ++ success_msg) w in
        (success_msg, w)
    | Some e =>
        let error_msg := "Failed to send email: " ++ e in
        let w := log_system_message (log_prefix ++ ": ❌ " ++ error_msg) w in
        (error_msg, w)
    end.

Definition URGENCY_LEVELS : gmap string string :=
  <["critical" := "🔴 CRITICAL - Immediate attention required"]>
  (<["high" := "🟠 HIGH - Same day appointment needed"]>
  (<["medium" := "🟡 MEDIUM - Within 3-5 days"]>
  (<["low" := "🟢 LOW - Routine care, within 1-2 weeks"]> ∅))).

Record department : Type := { dept_name : string; icon : string; color : string }.

#[global] Instance department_inhabited : Inhabited department :=
  populate {| dept_name := ""; icon := ""; color := "" |}.

Definition dept_info : gmap string department :=
  <["emergency" := {| dept_name := "Emergency Department"; icon := "🚨"; color := "#dc2626" |}]>
  (<["cardiology" := {| dept_name := "Cardiology Department"; icon := "❤️"; color := "#ef4444" |}]>
  (<["dermatology" := {| dept_name := "Dermatology Department"; icon := "🔬"; color := "#06b6d4" |}]>
  (<["orthopedics" := {| dept_name := "Orthopedic Department"; icon := "🦴"; color := "#8b5cf6" |}]>
  (<["mental_health" := {| dept_name := "Mental Health Department"; icon := "🧠"; color := "#10b981" |}]>
  (<["pediatrics" := {| dept_name := "Pediatrics Department"; icon := "👶"; color := "#f59e0b" |}]>
  (<["gynecology" := {| dept_name := "Women's Health Department"; icon := "👩‍⚕️"; color := "#ec4899" |}]>
  (<["general" := {| dept_name := "General Practice"; icon := "👨‍⚕️"; color := "#6366f1" |}]>
   ∅))))))).

Definition urgency_colors : gmap string string :=
  <["critical" := "#dc2626"]> (<["high" := "#ea580c"]>
  (<["medium" := "#eab308"]> (<["low" := "#16a34a"]> ∅))).

(** The markup of the mail is written with a backquote where the Python
    text has a double quote; [html] puts the double quotes back. *)
Definition html (s : string) : string :=
  map_chars (fun c => if Ascii.eqb c "`" then ascii_of_N 34 else c) s.

(** [dept = dept_info.get(specialty, dept_info["general"])] *)
Definition dept_of (specialty : string) : department :=
  default (dept_info !!! "general") (dept_info !! specialty).

(** [urgency_display = URGENCY_LEVELS.get(urgency, urgency.upper())] *)
Definition urgency_display_of (urgency : string) : string :=
  default (upper urgency) (URGENCY_LEVELS !! urgency).

(** [urgency_color = urgency_colors.get(urgency, "#6b7280")] *)
Definition urgency_color_of (urgency : string) : string :=
  default "#6b7280" (urgency_colors !! urgency).

(** The paragraph chosen by the [if urgency == ... elif ... else] chain. *)
Definition next_steps (urgency : string) : string :=
  if urgency =? "critical" then
      html "<p style=`color: #92400e; font-weight: bold;`>" ++
      html "🚨 IMMEDIATE ACTION REQUIRED - Contact patient immediately</p>"
  else if urgency =? "high" then
      html "<p style=`color: #92400e; font-weight: bold;`>" ++
      html "⚡ HIGH PRIORITY - Schedule same-day appointment</p>"
  else if urgency =? "medium" then
      html "<p style=`color: #92400e;`>📅 Schedule appointment within 3-5 days</p>"
  else
      html "<p style=`color: #92400e;`>📋 Routine scheduling (1-2 weeks)</p>".

Definition create_admin_notification_email
    (name : string) (age gender phone email insurance symptoms medical_history : option string)
    (specialty urgency : string) (w : world) : string * world :=
  let urgency_display := urgency_display_of urgency in
  let dept := dept_of specialty in
  let urgency_color := urgency_color_of urgency in
  let email_body :=
      html "<div style=`font-family: Arial, sans-serif; " ++
      html "max-width: 700px; margin: 0 auto; background: #f8fafc;`>" ++
      html "<div style=`background: linear-gradient(135deg, #2c5aa0 0%, " ++
      html "#1e3a8a 100%); color: white; padding: 2rem; " ++
      html "text-align: center;`><h1 style=`margin: 0; " ++
      html "font-size: 1.8rem;`>🏥 New Patient Alert</h1>" ++
      html "<p style=`margin: 0.5rem 0 0 0; opacity: 0.9;`>" ++
      html "Healthcare Intake System</p></div>" ++
      html "<div style=`padding: 2rem; background: white;`>" ++
      html "<div style=`background: " ++
      urgency_color ++
      html "; color: white; padding: 1rem; border-radius: 8px; " ++
      html "text-align: center; margin-bottom: 2rem;`>" ++
      html "<h2 style=`margin: 0; font-size: 1.2rem;`>🚨 " ++
      urgency_display ++
      html "</h2></div><div style=`background: " ++
      color dept ++
      html "15; border-left: 4px solid " ++
      color dept ++
      html "; padding: 1.5rem; margin: 1.5rem 0; " ++
      html "border-radius: 0 8px 8px 0;`><h3 style=`color: " ++
      color dept ++
      html "; margin-top: 0;`><span style=`font-size: 1.5rem;`>" ++
      icon dept ++
      html "</span> Routed to: " ++
      dept_name dept ++
      html "</h3></div><h3 style=`color: #2c5aa0; " ++
      html "border-bottom: 2px solid #e5e7eb; padding-bottom: 0.5rem;`>" ++
      html "Patient Information</h3><div style=`margin-bottom: 2rem;`>" ++
      html "<p><strong>Name:</strong> " ++
      name ++
      html "</p><p><strong>Age:</strong> " ++
      or_else age "Not provided" ++
      html "</p><p><strong>Gender:</strong> " ++
      or_else gender "Not provided" ++
      html "</p><p><strong>Phone:</strong> " ++
      or_else phone "Not provided" ++
      html "</p><p><strong>Email:</strong> " ++
      or_else email "Not provided" ++
      html "</p><p><strong>Insurance:</strong> " ++
      or_else insurance "Not provided" ++
      html "</p><p><strong>Department:</strong> " ++
      title specialty ++
      html "</p><p><strong>Priority:</strong> <span style=`color: " ++
      urgency_color ++
      html "; font-weight: bold;`>" ++
      upper urgency ++
      html "</span></p></div><h3 style=`color: #2c5aa0; " ++
      html "border-bottom: 2px solid #e5e7eb; padding-bottom: 0.5rem;`>" ++
      html "Medical Information</h3><div style=`background: #f8fafc; " ++
      html "padding: 1rem; border-radius: 8px; margin-bottom: 1rem;`><p>" ++
      html "<strong>Symptoms:</strong></p><p style=`padding: 0.5rem; " ++
      html "background: white; border-radius: 4px; " ++
      html "border-left: 3px solid #2c5aa0;`>" ++
      or_else symptoms "Not provided" ++
      html "</p><p><strong>Medical History:</strong></p>" ++
      html "<p style=`padding: 0.5rem; background: white; " ++
      html "border-radius: 4px; border-left: 3px solid #2c5aa0;`>" ++
      or_else medical_history "Not provided" ++
      html "</p></div><h3 style=`color: #2c5aa0; " ++
      html "border-bottom: 2px solid #e5e7eb; padding-bottom: 0.5rem;`>" ++
      html "Next Steps</h3><div style=`background: #fef3c7; " ++
      html "border: 1px solid #fcd34d; border-radius: 8px; padding: 1rem;`>" in
  let email_body := email_body ++ next_steps urgency in
  let '(created, w) := now w in
  let email_body := email_body ++
      html "<p style=`color: #92400e;`>" ++
      html "• Review patient information and medical history</p>" ++
      html "<p style=`color: #92400e;`>" ++
      html "• Contact patient using provided contact information</p>" ++
      html "<p style=`color: #92400e;`>" ++
      html "• Verify insurance coverage before appointment</p>" ++
      html "<p style=`color: #92400e;`>• Prepare " ++
      lower (dept_name dept) ++
      html " consultation materials</p></div>" ++
      html "<div style=`margin-top: 2rem; padding: 1rem; " ++
      html "background: #f1f5f9; border-radius: 8px; " ++
      html "text-align: center;`><p style=`margin: 0; color: #6b7280; " ++
      html "font-size: 0.9rem;`><strong>Record created:</strong> " ++
      created ++
      html "<br><strong>System:</strong>" ++
      html " Healthcare Intake System v2.0</p></div></div></div>" in
  (email_body, w).

Definition critical_prefix : string := "🔴 CRITICAL ALERT: ".
Definition high_prefix : string := "🟠 HIGH PRIORITY: ".

(** [urgency_prefix] of [send_admin_notification]. *)
Definition urgency_prefix_of (urgency : string) : string :=
  if urgency =? "critical" then critical_prefix
  else if urgency =? "high" then high_prefix
  else "".

(** The keyword arguments [**patient_info]: the keys in the order they
    were passed, each with its value, a string or [None].  The keys of a
    dictionary are distinct; of two equal keys the first is read. *)
Definition kwargs : Type := list (string * option string).

(** [patient_info.get(key, dflt)] *)
Fixpoint get (patient_info : kwargs) (key : string) (dflt : option string)
    : option string :=
  match patient_info with
  | [] => dflt
  | (k, v) :: rest => if k =? key then v else get rest key dflt
  end.

(** The value a parameter whose default is [None] takes from the keyword
    arguments. *)
Definition kwarg (patient_info : kwargs) (key : string) : option string :=
  get patient_info key None.

(** An exception raised inside the module, with the text of [str(e)]. *)
Inductive exception : Type :=
  | TypeError (message : string)
  | AttributeError (message : string).

Definition str (e : exception) : string :=
  match e with
  | TypeError message | AttributeError message => message
  end.

(** The keyword parameters of [create_admin_notification_email]. *)
Definition parameters : list string :=
  ["age"; "gender"; "phone"; "email"; "insurance"; "symptoms"; "medical_history";
   "specialty"; "urgency"].

Definition is_parameter (key : string) : bool :=
  existsb (String.eqb key) parameters.

(** The first keyword passed that [create_admin_notification_email] does
    not take. *)
Definition unexpected_keyword (patient_info : kwargs) : option string :=
  List.find (fun key => negb (is_parameter key)) (map fst patient_info).

Definition subject_of (name specialty urgency : string) : string :=
  urgency_prefix_of urgency ++ "New Patient: " ++ name ++ " → " ++ title specialty ++ " Dept".

(** A call with the keyword [name] is refused before the body runs.  In
    the body, a label bound to [None] is not replaced by the default of
    [get]: [specialty.title()] in the subject, then the call of
    [create_admin_notification_email] with a keyword it does not take,
    then [urgency.upper()] in its first line raise. *)
Definition send_admin_notification (cfg : config)
    (name : string) (patient_info : kwargs)
    (w : world) : (exception + string) * world :=
  if existsb (String.eqb "name") (map fst patient_info) then
    (inl (TypeError "send_admin_notification() got multiple values for argument 'name'"), w)
  else if negb (EMAIL_ENABLED cfg) || negb (truthy (EMAIL_USER cfg)) then
    (inr "Email not configured", w)
  else
    match get patient_info "specialty" (Some "general") with
    | None => (inl (AttributeError "'NoneType' object has no attribute 'title'"), w)
    | Some specialty =>
        match unexpected_keyword patient_info with
        | Some key =>
            (inl (TypeError ("create_admin_notification_email() got an unexpected "
                             ++ "keyword argument '" ++ key ++ "'")), w)
        | None =>
            match get patient_info "urgency" (Some "medium") with
            | None =>
                (inl (AttributeError "'NoneType' object has no attribute 'upper'"), w)
            | Some urgency =>
                let subject := subject_of name specialty urgency in
                let '(body, w) :=
                  create_admin_notification_email name
                    (kwarg patient_info "age") (kwarg patient_info "gender")
                    (kwarg patient_info "phone") (kwarg patient_info "email")
                    (kwarg patient_info "insurance") (kwarg patient_info "symptoms")
                    (kwarg patient_info "medical_history") specialty urgency w in
                let w := log_system_message
                           ("ADMIN NOTIFICATION: Sending alert for " ++ name ++ " ("
                            ++ specialty ++ ", " ++ urgency ++ ")") w in
                let '(result, w) :=
                  send_email_message cfg (default "" (EMAIL_USER cfg)) subject body None
                    "ADMIN" w in
                (inr result, w)
            end
        end
    end.

(** *** The coordinator *)

(** [patient_info = {'age': age, ..., 'urgency': urgency}] *)
Definition patient_info_of
    (age gender phone email insurance symptoms medical_history : option string)
    (specialty urgency : string) : kwargs :=
  [ ("age", age); ("gender", gender); ("phone", phone); ("email", email);
    ("insurance", insurance); ("symptoms", symptoms);
    ("medical_history", medical_history); ("specialty", Some specialty);
    ("urgency", Some urgency) ].

Definition save_patient_to_database (cfg : config)
    (name : string) (age gender phone email insurance symptoms medical_history : option string)
    (specialty urgency : string) (w : world) : string * world :=
  let '(timestamp, w) := now w in
  let w := log_system_message ("DATABASE: Storing patient record for " ++ name) w in
  match insert_patient timestamp name (or_else age "") (or_else gender "")
          (or_else phone "") (or_else email "") (or_else insurance "")
          (or_else symptoms "") (or_else medical_history "") specialty urgency (db w) with
  | inr d =>
      let w := with_db d w in
      let w := log_system_message ("DATABASE: ✅ Patient record stored for " ++ name) w in
      let w := log_system_message
                 ("DEPARTMENT ROUTING: 🏥 " ++ name ++ " → " ++ title specialty
                  ++ " Department (" ++ upper urgency ++ " priority)") w in
      let patient_info :=
        patient_info_of age gender phone email insurance symptoms medical_history
          specialty urgency in
      match send_admin_notification cfg name patient_info w with
      | (inr email_result, w) =>
          let w := log_system_message ("ADMIN EMAIL: " ++ email_result) w in
          ("✅ Patient record for " ++ name ++ " successfully stored and admin notified", w)
      | (inl e, w) =>
          let error_msg := "Failed to store patient record: " ++ str e in
          let w := log_system_message ("DATABASE ERROR: ❌ " ++ error_msg) w in
          (error_msg, w)
      end
  | inl e =>
      let error_msg := "Failed to store patient record: " ++ e in
      let w := log_system_message ("DATABASE ERROR: ❌ " ++ error_msg) w in
      (error_msg, w)
  end.

End Clinic.

(** ** A small environment to run the functions in *)
Module Sample.
Import PyStr Clinic.

(** The three methods as CPython 3.11 has them on ASCII text, with its
    default limit of 4300 digits. *)
Definition ascii_methods : str_methods :=
  {| str_lower := lower;
     str_isdigit := all_digits;
     int_of_str := fun s =>
       if all_digits s && (String.length s <=? 4300)%nat then Some (decimal s)
       else None |}.

Definition two_digits (n : nat) : string :=
  (if (n <? 10)%nat then "0" else "") ++ str_of_nat n.

(** A clock that starts on 2024-05-01 at 10:00:00 and moves one second
    with every reading. *)
Definition sample_clock (n : nat) : string :=
  "2024-05-01 10:" ++ two_digits ((n / 60) mod 60)%nat ++ ":" ++ two_digits (n mod 60)%nat.

Definition cfg_mail : config :=
  {| EMAIL_USER := Some "desk@clinic.example";
     EMAIL_APP_PASSWORD := Some "app-password";
     DB_FILE := "patients.db" |}.

Definition cfg_no_mail : config :=
  {| EMAIL_USER := None; EMAIL_APP_PASSWORD := None; DB_FILE := "patients.db" |}.

(** A new database file, an empty log, and a mail server that refuses
    every session. *)
Definition world_fresh : world :=
  {| db := NoTable; system_logs := []; ticks := 0; clock := sample_clock;
     smtp := fun _ => Some "Connection refused"; requested := []; delivered := [] |}.

(** The same after [init_database], as [main] runs it. *)
Definition world_ready : world := snd (init_database cfg_mail world_fresh).

End Sample.

(** ** What the functions are specified against *)
Module Spec.
Import PyStr.

(** [sub] occurs in [s] as a run of consecutive characters. *)
Definition Substring (sub s : string) : Prop :=
  exists before after, s = before ++ sub ++ after.

(** Some keyword of the list occurs in the text. *)
Definition mentions (keywords : list string) (text : string) : Prop :=
  exists keyword, In keyword keywords /\ Substring keyword text.

(** Two characters that are equal or the capital and the small form of one
    of the letters A to Z. *)
Definition same_letter (a b : ascii) : Prop :=
  a = b \/
  ((65 <= N_of_ascii a <= 90)%N /\ N_of_ascii b = (N_of_ascii a + 32)%N) \/
  ((65 <= N_of_ascii b <= 90)%N /\ N_of_ascii a = (N_of_ascii b + 32)%N).

(** Two texts that differ at most in the case of their letters. *)
Inductive caseless : string -> string -> Prop :=
  | caseless_empty : caseless "" ""
  | caseless_more (a b : ascii) (s t : string) :
      same_letter a b -> caseless s t -> caseless (String a s) (String b t).

(** Some keyword of the list is written in the text, in any case of its
    letters. *)
Definition mentions_in_any_case (keywords : list string) (text : string) : Prop :=
  exists keyword written,
    In keyword keywords /\ caseless written keyword /\ Substring written text.

(** None of the five lists that come before the age has a keyword in
    the text. *)
Definition unmatched_five (text : string) : Prop :=
  ~ mentions Triage.emergency_keywords text /\
  ~ mentions Triage.cardiology_keywords text /\
  ~ mentions Triage.dermatology_keywords text /\
  ~ mentions Triage.orthopedics_keywords text /\
  ~ mentions Triage.mental_health_keywords text.

(** [numeral s n]: [s] is a decimal numeral, one digit or more, of value [n]. *)
Inductive numeral : string -> N -> Prop :=
  | numeral_digit (c : ascii) :
      is_digit_char c = true -> numeral (String c "") (digit_value c)
  | numeral_more (s : string) (n : N) (c : ascii) :
      numeral s n -> is_digit_char c = true ->
      numeral (s ++ String c "") (10 * n + digit_value c)%N.

(** An age text that reads as a whole number below 18. *)
Definition minor_age (age : option string) : Prop :=
  exists text n, age = Some text /\ numeral text n /\ (n < 18)%N.

(** The interpreter takes the age for digits and reads it as [years]. *)
Definition age_reads (U : str_methods) (age : option string) (years : N) : Prop :=
  exists text, age = Some text /\ text <> "" /\
               str_isdigit U text = true /\ int_of_str U text = Some years.

(** The interpreter takes the age for digits and [int] refuses it. *)
Definition age_refused (U : str_methods) (age : option string) : Prop :=
  exists text, age = Some text /\ text <> "" /\
               str_isdigit U text = true /\ int_of_str U text = None.

(** The character before the text that follows [taken]. *)
Fixpoint last_char (previous : option ascii) (taken : string) : option ascii :=
  match taken with
  | EmptyString => previous
  | String c rest => last_char (Some c) rest
  end.

(** [Matches ignorecase p caps previous s rest caps']: read from [s], with
    [previous] the character before it, the pattern [p] takes the text
    down to [rest] and moves the group marks from [caps] to [caps']. *)
Inductive Matches (ignorecase : bool)
    : Re.pattern -> Re.captures -> option ascii -> string -> string -> Re.captures
      -> Prop :=
  | Matches_end (caps : Re.captures) (previous : option ascii) (s : string) :
      Matches ignorecase [] caps previous s s caps
  | Matches_boundary (p : Re.pattern) (caps caps' : Re.captures)
      (previous : option ascii) (s rest : string) :
      Re.at_boundary previous s = true ->
      Matches ignorecase p caps previous s rest caps' ->
      Matches ignorecase (Re.Boundary :: p) caps previous s rest caps'
  | Matches_repeat (class : list Re.atom) (lo : nat) (hi : option nat) (p : Re.pattern)
      (caps caps' : Re.captures) (previous previous' : option ascii)
      (taken s' rest : string) :
      all_chars (Re.class_matches ignorecase class) taken = true ->
      lo <= String.length taken ->
      (forall most, hi = Some most -> String.length taken <= most) ->
      previous' = last_char previous taken ->
      Matches ignorecase p caps previous' s' rest caps' ->
      Matches ignorecase (Re.Repeat class lo hi :: p) caps previous (taken ++ s') rest caps'
  | Matches_open (p : Re.pattern) (caps caps' : Re.captures) (previous : option ascii)
      (s rest : string) :
      Matches ignorecase p {| Re.opened := Some s; Re.closed := Re.closed caps |}
        previous s rest caps' ->
      Matches ignorecase (Re.GroupOpen :: p) caps previous s rest caps'
  | Matches_close (p : Re.pattern) (caps caps' : Re.captures) (previous : option ascii)
      (s rest : string) :
      Matches ignorecase p {| Re.opened := Re.opened caps; Re.closed := Some s |}
        previous s rest caps' ->
      Matches ignorecase (Re.GroupClose :: p) caps previous s rest caps'.



(** The newest line of the log is [message] under some time stamp. *)
Definition last_log_says (w : Clinic.world) (message : string) : Prop :=
  exists older stamp,
    Clinic.system_logs w = (older ++ [("[" ++ stamp ++ "] " ++ message)%string])%list.

(** [w'] differs from [w] at most in the log and in the clock readings
    it has used. *)
Definition only_logged (w w' : Clinic.world) : Prop :=
  Clinic.db w' = Clinic.db w /\ Clinic.smtp w' = Clinic.smtp w /\
  Clinic.clock w' = Clinic.clock w /\
  Clinic.requested w' = Clinic.requested w /\
  Clinic.delivered w' = Clinic.delivered w.

(** [earlier] does not come after [later] in the order of the time stamps. *)
Definition not_older (later earlier : Clinic.patient) : Prop :=
  String.leb (Clinic.timestamp earlier) (Clinic.timestamp later) = true.




End Spec.

(** ** The tools handed to the agent, and the side bar *)
Module Tools.
Import PyStr Clinic.

(** The tool [send_email]: [send_email_message] under its default log
    prefix. *)
Definition send_email (cfg : config) (to_email subject body : string)
    (cc : option string) (w : world) : string * world :=
  send_email_message cfg to_email subject body cc "EMAIL" w.

(** [s.split(sep)] for a separator of one character. *)
Fixpoint split_on (sep : ascii) (s : string) : list string :=
  match s with
  | EmptyString => [""]
  | String c rest =>
      if Ascii.eqb c sep then "" :: split_on sep rest
      else
        match split_on sep rest with
        | piece :: pieces => String c piece :: pieces
        | [] => [String c ""]
        end
  end.

(** [recipients = [to_email] + (cc.split(',') if cc else [])]: the
    addresses [send_email_message] gives to [server.sendmail]. *)
Definition recipients (m : mail) : list string :=
  (mail_to m :: (if truthy (mail_cc m) then split_on "," (default "" (mail_cc m))
                 else []))%list.

(** The text [route_patient_to_department] logs after ["SYMPTOMS: "]:
    [symptoms[:50] + '...' if symptoms and len(symptoms) > 50
     else symptoms or 'None provided']. *)
Definition symptoms_preview (symptoms : option string) : string :=
  if truthy symptoms && (50 <? len (default "" symptoms))%nat
  then take 50 (default "" symptoms) ++ "..."
  else or_else symptoms "None provided".

Definition route_patient_to_department (specialty name : string)
    (age gender phone email insurance symptoms medical_history : option string)
    (urgency : string) (w : world) : string * world :=
  let w := log_system_message
             ("🏥 DEPARTMENT ROUTING: " ++ name ++ " → " ++ title specialty
              ++ " Department") w in
  let w := log_system_message ("📊 PRIORITY LEVEL: " ++ upper urgency) w in
  let w := log_system_message ("🔍 SYMPTOMS: " ++ symptoms_preview symptoms) w in
  ("Patient " ++ name ++ " routed to " ++ specialty ++ " department with "
   ++ urgency ++ " priority", w).

Definition store_patient_in_database (cfg : config) (name : string)
    (age gender phone email insurance symptoms medical_history : option string)
    (specialty urgency : string) (w : world) : string * world :=
  save_patient_to_database cfg name age gender phone email insurance symptoms
    medical_history specialty urgency w.

(** The button "View Patient Records" of [render_sidebar]: the rows given
    to [st.sidebar.dataframe] ([df.head(10)]), or [None] when the frame is
    empty and the side bar shows its "No patient records" note. *)
Definition view_patient_records (w : world) : option (list patient) * world :=
  let '(df, w) := get_all_patients w in
  if negb (Nat.eqb (length df) 0) then (Some (firstn 10 df), w) else (None, w).

(** The button "Send Test Admin Alert", which [render_sidebar] offers only
    [if EMAIL_ENABLED]: [None] when the button is not there, else whether
    the side bar reports success (["successfully" in result]).  An
    exception of [send_admin_notification] is not caught here. *)
Definition send_test_admin_alert (cfg : config) (w : world)
    : (exception + option bool) * world :=
  if negb (EMAIL_ENABLED cfg) then (inr None, w) else
  let test_patient_info : kwargs :=
    [ ("age", Some "45"); ("gender", Some "Male"); ("phone", Some "(555) 123-4567");
      ("email", Some "test@example.com"); ("insurance", Some "Blue Cross");
      ("symptoms", Some "Test chest pain symptoms for system testing");
      ("medical_history", Some "No known allergies, previous cardiac screening");
      ("specialty", Some "cardiology"); ("urgency", Some "high") ] in
  match send_admin_notification cfg "Test Patient" test_patient_info w with
  | (inr result, w) => (inr (Some (contains "successfully" result)), w)
  | (inl e, w) => (inl e, w)
  end.

End Tools.

(** ** One chat turn *)
Module Session.
Import PyStr Clinic Tools.

(** An entry of [st.session_state['messages']]. *)
Record message : Type := { role : string; content : string }.

(** The keys of [st.session_state] that [process_user_message] reads and
    writes, each possibly missing; the log lives in the world. *)
Record session : Type := {
  conversation_history : option string;
  intake_coordinator : bool;
  messages : option (list message)
}.

(** [Runner.run(agent, history)]: the final output of the agent, or the
    text of the exception it raises; the tools the agent calls act on
    the world. *)
Definition runner : Type := string -> world -> (string + string) * world.

(** [str(e)] of the exception [st.session_state[key]] raises for a key it
    does not hold. *)
Definition key_error : Type := string -> string.

Definition newline : string := String (ascii_of_N 10) "".

Definition apology : string :=
  "I apologize, but there was an error processing your message. Please try again.".

(** The [except Exception as e] branch. *)
Definition report_failure (e : string) (s : session) (w : world)
    : string * session * world :=
  let error_msg := "Error processing message: " ++ e in
  let w := log_system_message ("PROCESSING ERROR: " ++ error_msg) w in
  (apology, s, w).

(** The first lines of [process_user_message]: a missing history is the
    empty one; the first message becomes the history as it is, a later one
    is added on a line of its own under the label ["Patient: "]. *)
Definition add_patient_turn (history : option string) (user_input : string) : string :=
  let history := default "" history in
  if truthy (Some history) then history ++ newline ++ "Patient: " ++ user_input
  else user_input.

(** [create_agent_system] builds the agent from the instructions and the
    three tools and has no effect of its own; what the agent does is in
    [run]. *)
Definition process_user_message (run : runner) (missing : key_error)
    (user_input : string) (s : session) (w : world) : string * session * world :=
  let history := add_patient_turn (conversation_history s) user_input in
  let s := {| conversation_history := Some history;
              intake_coordinator := intake_coordinator s;
              messages := messages s |} in
  let w := log_system_message
             ("PROCESSING: New message: " ++ take 50 user_input ++ "...") w in
  let w := if intake_coordinator s then w
           else log_system_message "PROCESSING: Creating intake coordinator agent" w in
  let s := {| conversation_history := conversation_history s;
              intake_coordinator := true; messages := messages s |} in
  let w := log_system_message "PROCESSING: Running through intake coordinator" w in
  match run history w with
  | (inl e, w) => report_failure e s w
  | (inr response, w) =>
      let w := log_system_message
                 ("PROCESSING: Generated response: " ++ take 50 response ++ "...") w in
      let s := {| conversation_history :=
                    Some (history ++ newline ++ "Assistant: " ++ response);
                  intake_coordinator := true; messages := messages s |} in
      match messages s with
      | None => report_failure (missing "messages") s w
      | Some earlier =>
          let s := {| conversation_history := conversation_history s;
                      intake_coordinator := true;
                      messages :=
                        Some (earlier ++ [ {| role := "user"; content := user_input |};
                                           {| role := "assistant"; content := response |} ])%list
                   |} in
          (response, s, w)
      end
  end.

(** The button "New Patient Session" of [render_sidebar]. *)
Definition new_patient_session (s : session) (w : world) : session * world :=
  let s := {| conversation_history := Some ""; intake_coordinator := intake_coordinator s;
              messages := Some [] |} in
  let w := log_system_message "SYSTEM: New patient session started" w in
  (s, w).

End Session.

(** ** The monitoring panel of [main] *)
Module Panel.
Import PyStr Clinic.

(** [logs[-n:]] for [n] above 0. *)
Definition last_lines (n : nat) (logs : list string) : list string :=
  skipn (length logs - n) logs.

(** The markup [main] writes for one entry of the log: the first of the
    four cases that applies. *)
Definition log_markup (log : string) : string :=
  if contains "ERROR" log then
    html "<span style=`color: #ef4444;`>🔴 " ++ log ++ "</span>"
  else if contains "SUCCESS" log || contains "✅" log then
    html "<span style=`color: #10b981;`>🟢 " ++ log ++ "</span>"
  else if contains "WARNING" log then
    html "<span style=`color: #f59e0b;`>🟡 " ++ log ++ "</span>"
  else html "<span style=`color: #374151;`>" ++ log ++ "</span>".

(** The lines of the log container: [system_logs[-20:]], each marked up. *)
Definition log_container (w : world) : list string :=
  map log_markup (last_lines 20 (system_logs w)).

End Panel.

(** ** What the further properties are stated with *)
Module Props.
Import PyStr Re Clinic Spec.

(** The texts a pattern can take, word boundaries and group marks left
    aside: one run of characters of the class for every repetition, of a
    length within its bounds. *)
Fixpoint accepts (ignorecase : bool) (p : pattern) (x : string) : Prop :=
  match p with
  | [] => x = ""
  | Repeat class lo hi :: p' =>
      exists taken x',
        x = taken ++ x' /\
        all_chars (class_matches ignorecase class) taken = true /\
        lo <= String.length taken /\
        (forall most, hi = Some most -> String.length taken <= most) /\
        accepts ignorecase p' x'
  | _ :: p' => accepts ignorecase p' x
  end.


(** How many characters of [s] satisfy [p]. *)
Fixpoint count_chars (p : ascii -> bool) (s : string) : nat :=
  match s with
  | EmptyString => 0
  | String c rest => (if p c then 1 else 0) + count_chars p rest
  end.

(** The stores that [init_database] and [save_patient_to_database] build
    from a new file: the empty table, and a table after one more insert. *)
Inductive grown : list patient -> Z -> Prop :=
  | grown_empty : grown [] 0
  | grown_insert (rows rows' : list patient) (sequence sequence' : Z)
      (timestamp name age gender phone email insurance symptoms medical_history
         specialty urgency : string) :
      grown rows sequence ->
      insert_patient timestamp name age gender phone email insurance symptoms
        medical_history specialty urgency (Patients rows sequence)
      = inr (Patients rows' sequence') ->
      grown rows' sequence'.

(** The text of the exception with which an insert fails, if it does:
    raised by [sqlite3.connect] or by the statement. *)
Definition store_error (d : database) : option string :=
  match d with
  | Unusable reason | Corrupt reason => Some reason
  | NoTable | ReadOnly None => Some no_such_table
  | ReadOnly (Some _) => Some read_only
  | Patients _ _ => None
  end.

(** The diagnostic [get_all_patients] logs when the listing fails, if it
    does: the text of [sqlite3.connect], or the text pandas gives to the
    error of the statement. *)
Definition listing_error (d : database) : option string :=
  match d with
  | Unusable reason => Some reason
  | NoTable | ReadOnly None =>
      Some ("Execution failed on sql 'SELECT * FROM patients ORDER BY timestamp DESC': "
            ++ "no such table: patients")
  | Corrupt reason =>
      Some ("Execution failed on sql 'SELECT * FROM patients ORDER BY timestamp DESC': "
            ++ reason)
  | Patients _ _ | ReadOnly (Some _) => None
  end.

(** The rows of the table, where the file holds it and can be read. *)
Definition stored (d : database) : option (list patient) :=
  match d with
  | Patients rows _ | ReadOnly (Some rows) => Some rows
  | _ => None
  end.

(** [w'] has the log of [w] with lines added at its end, and a clock read
    no fewer times. *)
Definition log_extended (w w' : world) : Prop :=
  (exists added, system_logs w' = (system_logs w ++ added)%list) /\
  ticks w <= ticks w'.

(** The time stamps grow strictly along the list. *)
Definition strictly_later (rows : list patient) : Prop :=
  StronglySorted (fun a b => String.ltb (timestamp a) (timestamp b) = true) rows.

(** The world in which [process_user_message] runs the agent: the log has
    the line for the message, the line for the new agent where the session
    holds none, and the line for the run. *)
Definition agent_world (user_input : string) (s : Session.session) (w : world) : world :=
  let w := log_system_message
             ("PROCESSING: New message: " ++ PyStr.take 50 user_input ++ "...") w in
  let w := if Session.intake_coordinator s then w
           else log_system_message "PROCESSING: Creating intake coordinator agent" w in
  log_system_message "PROCESSING: Running through intake coordinator" w.


End Props.

(** ** Two records at the desk *)
Module Cases.
Import Clinic.

Definition row (n : Z) (stamp who label tier : string) : patient :=
  {| id := n; timestamp := stamp; name := who; age := ""; gender := ""; phone := "";
     email := ""; insurance := ""; symptoms := ""; medical_history := "";
     specialty := label; urgency := tier; status := "pending" |}.

Definition two_rows : list patient :=
  [ row 1 "2024-05-01 09:15:00" "Maria" "emergency" "critical";
    row 2 "2024-05-01 09:40:30" "Noor" "general" "medium" ].

(** A store with the two records, and a mail server that takes every
    message. *)
Definition world_two : world :=
  {| db := Patients two_rows 2; system_logs := []; ticks := 0;
     clock := Sample.sample_clock; smtp := fun _ => None;
     requested := []; delivered := [] |}.

End Cases.

(** * Properties *)

(** ** Strings *)
Section StringFacts.
Import PyStr Spec.

Lemma append_is_empty (a b : string) : a ++ b = "" -> a = "" /\ b = "".
Proof. destruct a; simpl; intros H; [auto | discriminate]. Qed.

Lemma prefix_spec (p s : string) :
  String.prefix p s = true <-> exists after, s = p ++ after.
Proof.
  revert s; induction p as [|c p IH]; intros s.
  - destruct s; simpl; split; eauto.
  - destruct s as [|d s]; simpl.
    + split; [discriminate | intros [after H]; discriminate].
    + destruct (ascii_dec c d) as [->|Hne].
      * rewrite IH. split; intros [after H]; exists after; congruence.
      * split; [discriminate | intros [after H]; congruence].
Qed.

Lemma contains_spec (sub s : string) : contains sub s = true <-> Substring sub s.
Proof.
  unfold Substring. induction s as [|c s IH].
  - cbn [contains]. rewrite orb_false_r, prefix_spec. split.
    + intros [after H]. exists "", after. exact H.
    + intros (before & after & H). symmetry in H.
      apply append_is_empty in H as [-> H]. exists after. now rewrite H.
  - cbn [contains]. rewrite orb_true_iff, prefix_spec, IH. split.
    + intros [[after H] | (before & after & H)].
      * exists "", after. exact H.
      * exists (String c before), after. simpl. now rewrite H.
    + intros (before & after & H). destruct before as [|d before]; simpl in H.
      * left. eauto.
      * right. injection H as _ H. eauto.
Qed.

Lemma map_chars_append (f : ascii -> ascii) (a b : string) :
  map_chars f (a ++ b) = map_chars f a ++ map_chars f b.
Proof. induction a as [|c a IH]; simpl; [reflexivity | now rewrite IH]. Qed.

Lemma map_chars_compose (f g h : ascii -> ascii) (s : string) :
  (forall c, f (g c) = h c) -> map_chars f (map_chars g s) = map_chars h s.
Proof. intros H. induction s as [|c s IH]; simpl; [reflexivity | now rewrite H, IH]. Qed.

Lemma lower_char_idempotent (c : ascii) : lower_char (lower_char c) = lower_char c.
Proof. destruct c as [[] [] [] [] [] [] [] []]; reflexivity. Qed.

Lemma lower_upper_char (c : ascii) : lower_char (upper_char c) = lower_char c.
Proof. destruct c as [[] [] [] [] [] [] [] []]; reflexivity. Qed.

Lemma lower_idempotent (s : string) : lower (lower s) = lower s.
Proof. apply map_chars_compose, lower_char_idempotent. Qed.

Lemma lower_upper (s : string) : lower (upper s) = lower s.
Proof. apply map_chars_compose, lower_upper_char. Qed.

Lemma lower_append (a b : string) : lower (a ++ b) = lower a ++ lower b.
Proof. apply map_chars_append. Qed.

(** [int] reads the digits from the left, as the numeral says. *)
Lemma int_from_snoc (acc : N) (s : string) (c : ascii) :
  int_from acc (s ++ String c "") = (10 * int_from acc s + digit_value c)%N.
Proof. revert acc; induction s as [|d s IH]; intros acc; simpl; [reflexivity | apply IH]. Qed.

Lemma all_chars_snoc (p : ascii -> bool) (s : string) (c : ascii) :
  all_chars p (s ++ String c "") = all_chars p s && p c.
Proof.
  induction s as [|d s IH]; simpl.
  - now rewrite andb_true_r.
  - now rewrite IH, andb_assoc.
Qed.

Lemma snoc_not_empty (s : string) (c : ascii) : s ++ String c "" <> "".
Proof. destruct s; discriminate. Qed.

Lemma string_snoc_cases (s : string) :
  s = "" \/ exists s' c, s = s' ++ String c "".
Proof.
  induction s as [|c s IH]; [now left | right].
  destruct IH as [-> | (s' & d & ->)].
  - exists "", c. reflexivity.
  - exists (String c s'), d. reflexivity.
Qed.

Lemma length_snoc (s : string) (c : ascii) :
  String.length (s ++ String c "") = S (String.length s).
Proof. induction s; simpl; congruence. Qed.

Lemma numeral_sound (s : string) (n : N) :
  numeral s n -> all_digits s = true /\ decimal s = n.
Proof.
  unfold all_digits, decimal. induction 1 as [c Hc | s n c _ [IHd IHv] Hc].
  - simpl. rewrite Hc. split; [reflexivity | lia].
  - apply andb_true_iff in IHd as [_ IHd].
    rewrite all_chars_snoc, int_from_snoc, IHd, Hc, IHv.
    split; [| reflexivity].
    destruct (String.eqb_spec (s ++ String c "") "") as [E|_]; [|reflexivity].
    now apply snoc_not_empty in E.
Qed.

Lemma numeral_complete (s : string) : all_digits s = true -> numeral s (decimal s).
Proof.
  unfold all_digits, decimal. remember (String.length s) as len eqn:Hlen.
  revert s Hlen. induction len as [|len IH]; intros s Hlen Hd.
  - destruct s; [discriminate Hd | discriminate Hlen].
  - destruct (string_snoc_cases s) as [-> | (s' & c & ->)]; [discriminate Hlen|].
    rewrite length_snoc in Hlen. injection Hlen as Hlen.
    apply andb_true_iff in Hd as [_ Hd].
    rewrite all_chars_snoc in Hd. apply andb_true_iff in Hd as [Hs Hc].
    rewrite int_from_snoc.
    destruct s' as [|d s'].
    + simpl. replace (10 * 0 + digit_value c)%N with (digit_value c) by lia.
      now constructor.
    + constructor; [| exact Hc]. apply IH; [exact Hlen |].
      now rewrite Hs.
Qed.

(** *** ASCII text *)

Lemma all_chars_app (p : ascii -> bool) (a b : string) :
  all_chars p (a ++ b) = all_chars p a && all_chars p b.
Proof. induction a as [|c a IH]; simpl; [reflexivity | now rewrite IH, andb_assoc]. Qed.

Lemma all_chars_weaken (p q : ascii -> bool) (s : string) :
  (forall c, p c = true -> q c = true) -> all_chars p s = true -> all_chars q s = true.
Proof.
  intros Hpq. induction s as [|c s IH]; simpl; [reflexivity|].
  intros H. apply andb_true_iff in H as [Hc Hs]. now rewrite (Hpq c Hc), IH.
Qed.

Lemma isascii_app (a b : string) : isascii (a ++ b) = isascii a && isascii b.
Proof. apply all_chars_app. Qed.

Lemma in_range_spec (lo hi : N) (c : ascii) :
  in_range lo hi c = true <-> (lo <= code c <= hi)%N.
Proof. unfold in_range. rewrite andb_true_iff, !N.leb_le. tauto. Qed.

Lemma in_range_not (lo hi : N) (c : ascii) :
  in_range lo hi c = false <-> ~ (lo <= code c <= hi)%N.
Proof. rewrite <- in_range_spec. destruct (in_range lo hi c); split; congruence. Qed.

Lemma digits_are_ascii (s : string) : all_digits s = true -> isascii s = true.
Proof.
  unfold all_digits, isascii. intros H. apply andb_true_iff in H as [_ H].
  revert H. apply all_chars_weaken. intros c Hc. unfold is_digit_char in Hc.
  apply in_range_spec in Hc. unfold is_ascii_char. apply N.ltb_lt. lia.
Qed.

(** *** Letter case *)

Lemma code_inj (a b : ascii) : code a = code b -> a = b.
Proof.
  unfold code. intros H.
  rewrite <- (ascii_N_embedding a), <- (ascii_N_embedding b). now rewrite H.
Qed.

Lemma code_lower_char (c : ascii) :
  code (lower_char c) = if is_upper_char c then (code c + 32)%N else code c.
Proof.
  unfold lower_char. destruct (is_upper_char c) eqn:H; [| reflexivity].
  apply in_range_spec in H. unfold code in *. apply N_ascii_embedding. lia.
Qed.

Lemma lower_char_same (a b : ascii) : lower_char a = lower_char b <-> same_letter a b.
Proof.
  unfold same_letter. fold (code a) (code b). split.
  - intros H. apply (f_equal code) in H. rewrite !code_lower_char in H.
    unfold is_upper_char in H.
    destruct (in_range 65 90 a) eqn:Ha; destruct (in_range 65 90 b) eqn:Hb;
      rewrite ?in_range_spec, ?in_range_not in *.
    + left. apply code_inj. lia.
    + right. left. split; [exact Ha | lia].
    + right. right. split; [exact Hb | lia].
    + left. now apply code_inj.
  - intros [-> | [[Ha Hb] | [Hb Ha]]]; [reflexivity | |];
      apply code_inj; rewrite !code_lower_char; unfold is_upper_char.
    + assert (H1 : in_range 65 90 a = true) by now apply in_range_spec.
      assert (H2 : in_range 65 90 b = false) by (apply in_range_not; lia).
      rewrite H1, H2. lia.
    + assert (H1 : in_range 65 90 b = true) by now apply in_range_spec.
      assert (H2 : in_range 65 90 a = false) by (apply in_range_not; lia).
      rewrite H1, H2. lia.
Qed.

Lemma lower_caseless (a b : string) : lower a = lower b <-> caseless a b.
Proof.
  unfold lower. revert b. induction a as [|x a IH]; intros [|y b]; simpl.
  - split; [constructor | reflexivity].
  - split; [discriminate | inversion 1].
  - split; [discriminate | inversion 1].
  - split.
    + intros H. injection H as Hc Hs. constructor; [now apply lower_char_same | now apply IH].
    + inversion 1 as [|? ? ? ? Hc Hs]; subst.
      apply lower_char_same in Hc. apply IH in Hs. now rewrite Hc, Hs.
Qed.

Lemma map_chars_app_inv (f : ascii -> ascii) (s x y : string) :
  map_chars f s = x ++ y ->
  exists b a, s = b ++ a /\ map_chars f b = x /\ map_chars f a = y.
Proof.
  revert s. induction x as [|c x IH]; intros s H.
  - exists "", s. repeat split. exact H.
  - destruct s as [|d s]; [discriminate H|]. simpl in H. injection H as Hc Hs.
    destruct (IH s Hs) as (b & a & -> & Hb & Ha).
    exists (String d b), a. simpl. rewrite Hc, Hb. repeat split. exact Ha.
Qed.

(** A keyword in small letters occurs in the lowered text exactly when it
    is written in the text in some case of its letters. *)
Lemma mentions_lower (keywords : list string) (s : string) :
  Forall (fun k => lower k = k) keywords ->
  mentions keywords (lower s) <-> mentions_in_any_case keywords s.
Proof.
  intros Hsmall. rewrite List.Forall_forall in Hsmall. split.
  - intros (k & Hin & before & after & Heq).
    apply map_chars_app_inv in Heq as (b & rest & -> & _ & Hrest).
    apply map_chars_app_inv in Hrest as (o & a & -> & Ho & _).
    exists k, o. split; [exact Hin|]. split; [| now exists b, a].
    apply lower_caseless. fold (lower o) in Ho. now rewrite Ho, (Hsmall k Hin).
  - intros (k & written & Hin & Hcase & before & after & ->).
    exists k. split; [exact Hin|]. exists (lower before), (lower after).
    apply lower_caseless in Hcase. rewrite (Hsmall k Hin) in Hcase.
    now rewrite !lower_append, Hcase.
Qed.

(** *** Characters and slices *)

Lemma len_append (a b : string) : len (a ++ b) = len a + len b.
Proof. induction a as [|c a IH]; simpl; [reflexivity | rewrite IH; lia]. Qed.

Lemma len_take (n : nat) (s : string) : len (take n s) = Nat.min n (len s).
Proof.
  revert n. induction s as [|c s IH]; intros n; simpl.
  - now rewrite Nat.min_0_r.
  - destruct (is_continuation c) eqn:E; simpl.
    + rewrite E, IH. simpl. lia.
    + destruct n as [|n]; simpl; [reflexivity|]. rewrite E, IH. simpl. lia.
Qed.

Lemma take_all (n : nat) (s : string) : len s <= n -> take n s = s.
Proof.
  revert n. induction s as [|c s IH]; intros n H; simpl in *; [reflexivity|].
  destruct (is_continuation c); simpl in H.
  - now rewrite IH.
  - destruct n as [|n]; [lia|]. rewrite IH; [reflexivity | lia].
Qed.

Lemma take_prefix (n : nat) (s : string) : String.prefix (take n s) s = true.
Proof.
  revert n. induction s as [|c s IH]; intros n; simpl; [reflexivity|].
  destruct (is_continuation c); simpl.
  - destruct (ascii_dec c c); [apply IH | congruence].
  - destruct n as [|n]; simpl; [reflexivity|].
    destruct (ascii_dec c c); [apply IH | congruence].
Qed.

Lemma len_ascii (s : string) : isascii s = true -> len s = String.length s.
Proof.
  unfold isascii. induction s as [|c s IH]; simpl; [reflexivity|].
  intros H. apply andb_true_iff in H as [Hc Hs]. rewrite (IH Hs).
  assert (E : is_continuation c = false).
  { apply in_range_not. unfold is_ascii_char in Hc. apply N.ltb_lt in Hc. lia. }
  now rewrite E.
Qed.

End StringFacts.

(** ** The classifiers *)
Section TriageFacts.
Import PyStr Spec Triage.

Lemma any_keyword_in_spec (keywords : list string) (text : string) :
  any_keyword_in keywords text = true <-> mentions keywords text.
Proof.
  unfold mentions. induction keywords as [|k keywords IH]; simpl.
  - split; [discriminate | intros (k & [] & _)].
  - destruct (contains k text) eqn:Hk.
    + split; [intros _ | reflexivity].
      exists k. split; [now left | now apply contains_spec].
    + rewrite IH. split.
      * intros (k' & Hin & Hsub). exists k'. split; [now right | exact Hsub].
      * intros (k' & [<- | Hin] & Hsub); [| now exists k'].
        apply contains_spec in Hsub. congruence.
Qed.

Lemma any_keyword_in_not (keywords : list string) (text : string) :
  any_keyword_in keywords text = false <-> ~ mentions keywords text.
Proof.
  rewrite <- any_keyword_in_spec. destruct (any_keyword_in keywords text).
  - split; [discriminate | intros H; now destruct H].
  - split; [discriminate | reflexivity].
Qed.

(** No keyword occurs in the empty text: every keyword has a character. *)
Lemma empty_text_mentions_nothing (keywords : list string) :
  any_keyword_in keywords "" = false -> ~ mentions keywords "".
Proof. apply any_keyword_in_not. Qed.

(** Every keyword of the two classifiers is written in small letters. *)
Lemma keywords_are_small :
  Forall (fun k => lower k = k) critical_keywords /\
  Forall (fun k => lower k = k) high_keywords /\
  Forall (fun k => lower k = k) emergency_keywords /\
  Forall (fun k => lower k = k) cardiology_keywords /\
  Forall (fun k => lower k = k) dermatology_keywords /\
  Forall (fun k => lower k = k) orthopedics_keywords /\
  Forall (fun k => lower k = k) mental_health_keywords /\
  Forall (fun k => lower k = k) gynecology_keywords.
Proof. repeat split; repeat constructor. Qed.

(** On ASCII text the loops find the keywords in any case of the letters. *)
Lemma mentions_on_ascii (U : str_methods) (HU : on_ascii U)
    (keywords : list string) (text : string) :
  Forall (fun k => lower k = k) keywords -> isascii text = true ->
  mentions keywords (str_lower U text) <-> mentions_in_any_case keywords text.
Proof.
  intros Hsmall Hascii. rewrite (lower_on_ascii U HU text Hascii).
  now apply mentions_lower.
Qed.

Lemma ascii_methods_on_ascii : on_ascii Sample.ascii_methods.
Proof.
  split; [reflexivity | reflexivity |].
  intros s Hd Hlen. cbn [int_of_str Sample.ascii_methods]. rewrite Hd.
  assert (E : (String.length s <=? 4300)%nat = true)
    by (apply Nat.leb_le; transitivity 640; [exact Hlen | apply Nat.leb_le; reflexivity]).
  now rewrite E.
Qed.

(** *** The age test *)

Lemma age_below_18_spec (U : str_methods) (age : option string) :
  let minor := exists years, age_reads U age years /\ (years < 18)%N in
  match age_below_18 U age with
  | inr true => minor /\ ~ age_refused U age
  | inr false => ~ minor /\ ~ age_refused U age
  | inl ValueError => age_refused U age /\ ~ minor
  end.
Proof.
  unfold age_below_18, age_reads, age_refused. cbv zeta.
  destruct age as [text|]; simpl.
  2: { split; [intros (y & (t & Ht & _) & _) | intros (t & Ht & _)]; discriminate Ht. }
  destruct (String.eqb_spec text "") as [-> | Hne]; simpl.
  { split; [intros (y & (t & Ht & Hn & _) & _) | intros (t & Ht & Hn & _)];
      injection Ht as <-; now destruct Hn. }
  destruct (str_isdigit U text) eqn:Hd; simpl.
  2: { split; [intros (y & (t & Ht & _ & Hd' & _) & _) | intros (t & Ht & _ & Hd' & _)];
         injection Ht as <-; congruence. }
  destruct (int_of_str U text) as [years|] eqn:Hint.
  - destruct (N.ltb_spec years 18) as [Hlt | Hge].
    + split.
      * exists years. split; [| exact Hlt]. now exists text.
      * intros (t & Ht & _ & _ & Hnone). injection Ht as <-. congruence.
    + split.
      * intros (y & (t & Ht & _ & _ & Hy) & Hlt). injection Ht as <-.
        rewrite Hint in Hy. injection Hy as <-. lia.
      * intros (t & Ht & _ & _ & Hnone). injection Ht as <-. congruence.
  - split.
    + now exists text.
    + intros (y & (t & Ht & _ & _ & Hy) & _). injection Ht as <-. congruence.
Qed.

(** An ASCII age of up to 640 characters is read exactly when it is a
    numeral, as the numeral says, and is never refused. *)
Lemma age_reads_ascii (U : str_methods) (HU : on_ascii U) (years : string) :
  isascii years = true -> String.length years <= 640 ->
  (forall n, age_reads U (Some years) n <-> numeral years n) /\
  ~ age_refused U (Some years).
Proof.
  intros Hascii Hlen.
  assert (Hread : str_isdigit U years = true -> int_of_str U years = Some (decimal years)).
  { intros Hd. rewrite (isdigit_on_ascii U HU years Hascii) in Hd.
    now apply (int_on_ascii U HU). }
  split.
  - intros n. split.
    + intros (t & Ht & _ & Hd & Hint). injection Ht as <-.
      rewrite (Hread Hd) in Hint. injection Hint as <-.
      apply numeral_complete. now rewrite <- (isdigit_on_ascii U HU years Hascii).
    + intros Hnum. apply numeral_sound in Hnum as [Hd <-].
      exists years. split; [reflexivity|]. split.
      { intros ->. discriminate Hd. }
      rewrite (isdigit_on_ascii U HU years Hascii). split; [exact Hd|].
      now apply (int_on_ascii U HU).
  - intros (t & Ht & _ & Hd & Hint). injection Ht as <-.
    rewrite (Hread Hd) in Hint. discriminate Hint.
Qed.

(** *** The ladders *)

Lemma assess_urgency_unfold (U : str_methods) (HU : on_ascii U)
    (symptoms age medical_history : option string) :
  assess_urgency U symptoms age medical_history =
  let text := str_lower U (default "" symptoms) in
  if any_keyword_in critical_keywords text then "critical"
  else if any_keyword_in high_keywords text then "high"
  else "medium".
Proof.
  destruct symptoms as [[|c s]|]; [| reflexivity |];
    cbv zeta; simpl default; rewrite (lower_on_ascii U HU "" eq_refl); reflexivity.
Qed.

(** Turns the outcome of a keyword loop, kept as an equation, into the
    statement that the text mentions, or does not mention, the list. *)
Ltac loop_outcome H :=
  first [ apply any_keyword_in_spec in H | apply any_keyword_in_not in H ].

Ltac split_on_loop kws :=
  match goal with
  | |- context [any_keyword_in kws ?t] =>
      let H := fresh "Hloop" in
      destruct (any_keyword_in kws t) eqn:H; loop_outcome H
  end.

(** An equivalence between an equation on labels and a statement on what
    the text mentions, once every loop outcome is a hypothesis. *)
Ltac settle_iff :=
  split;
  [ let H := fresh "Hlabel" in intros H; first [discriminate H | tauto]
  | intros; first [reflexivity | tauto] ].

Ltac settle :=
  repeat match goal with |- _ /\ _ => split end; settle_iff.

(** Two given texts differ only in the case of their letters. *)
Ltac same_case :=
  repeat (constructor;
          [first [ left; reflexivity
                 | right; left; split; [vm_compute; split; discriminate | reflexivity]
                 | right; right; split; [vm_compute; split; discriminate | reflexivity] ]
          |]);
  constructor.

(** Evaluates a classifier on an ASCII text given in full. *)
Ltac run_on_ascii HU :=
  unfold determine_specialty, age_below_18, assess_urgency;
  rewrite ?(lower_on_ascii _ HU) by reflexivity;
  rewrite ?(isdigit_on_ascii _ HU) by reflexivity;
  rewrite ?(int_on_ascii _ HU) by (first [reflexivity | apply Nat.leb_le; reflexivity]);
  vm_compute; reflexivity.

(** C1. [assess_urgency] answers [critical] exactly when a keyword of the
    critical list occurs in the lowered symptoms, otherwise [high] exactly
    when a keyword of the high list occurs, otherwise [medium] (empty and
    missing symptoms included); it never answers [low].  On ASCII symptoms
    this reads without [lower]: the keyword is written somewhere in the
    symptoms in any case of its letters, and two texts that differ only
    in the case of their letters get the same tier.  ["I have chest pain"]
    is [critical] however it is capitalised. *)
Theorem assess_urgency_by_keywords (U : str_methods) (HU : on_ascii U)
    (symptoms age medical_history : option string) :
  let text := default "" symptoms in
  let folded := str_lower U text in
  let tier := assess_urgency U symptoms age medical_history in
  (tier = "critical" <-> mentions critical_keywords folded) /\
  (tier = "high" <->
     ~ mentions critical_keywords folded /\ mentions high_keywords folded) /\
  (tier = "medium" <->
     ~ mentions critical_keywords folded /\ ~ mentions high_keywords folded) /\
  tier <> "low" /\
  (isascii text = true ->
     (tier = "critical" <-> mentions_in_any_case critical_keywords text) /\
     (tier = "high" <->
        ~ mentions_in_any_case critical_keywords text /\
        mentions_in_any_case high_keywords text) /\
     (tier = "medium" <->
        ~ mentions_in_any_case critical_keywords text /\
        ~ mentions_in_any_case high_keywords text) /\
     (forall other : string,
        isascii other = true -> caseless other text ->
        assess_urgency U (Some other) age medical_history = tier)) /\
  assess_urgency U (Some "I have chest pain") age medical_history = "critical" /\
  assess_urgency U (Some "I HAVE CHEST PAIN") age medical_history = "critical" /\
  assess_urgency U (Some "i have Chest Pain") age medical_history = "critical" /\
  assess_urgency U None age medical_history = "medium" /\
  assess_urgency U (Some "") age medical_history = "medium".
Proof.
  intros text folded tier.
  assert (Hladder :
    (tier = "critical" <-> mentions critical_keywords folded) /\
    (tier = "high" <->
       ~ mentions critical_keywords folded /\ mentions high_keywords folded) /\
    (tier = "medium" <->
       ~ mentions critical_keywords folded /\ ~ mentions high_keywords folded) /\
    tier <> "low").
  { subst tier. rewrite (assess_urgency_unfold U HU). fold text folded. cbv zeta.
    split_on_loop critical_keywords; [| split_on_loop high_keywords];
      (split; [| split; [| split]]; [settle_iff | settle_iff | settle_iff | discriminate]). }
  destruct Hladder as (Hc & Hh & Hm & Hlow).
  split; [exact Hc|]. split; [exact Hh|]. split; [exact Hm|]. split; [exact Hlow|].
  split; [| repeat split; run_on_ascii HU].
  intros Hascii.
  destruct keywords_are_small as (Hcs & Hhs & _).
  pose proof (mentions_on_ascii U HU critical_keywords text Hcs Hascii) as Ec.
  pose proof (mentions_on_ascii U HU high_keywords text Hhs Hascii) as Eh.
  fold folded in Ec, Eh.
  split; [tauto|]. split; [tauto|]. split; [tauto|].
  intros other Hother Hcase. subst tier.
  rewrite !(assess_urgency_unfold U HU). simpl default. fold text. cbv zeta.
  apply lower_caseless in Hcase.
  now rewrite (lower_on_ascii U HU other Hother), (lower_on_ascii U HU text Hascii), Hcase.
Qed.

(** A critical keyword in capitals inside a longer text, and the same text
    in small letters. *)
Lemma assess_urgency_by_keywords_sample :
  assess_urgency Sample.ascii_methods (Some "Severe BLEEDING from a cut") None None
  = "critical" /\
  assess_urgency Sample.ascii_methods (Some "severe bleeding from a cut") None None
  = "critical".
Proof.
  destruct (assess_urgency_by_keywords Sample.ascii_methods ascii_methods_on_ascii
              (Some "Severe BLEEDING from a cut") None None)
    as (_ & _ & _ & _ & Hascii & _).
  destruct (Hascii eq_refl) as (Hcritical & _ & _ & Hsame).
  assert (H : assess_urgency Sample.ascii_methods (Some "Severe BLEEDING from a cut")
                None None = "critical").
  { apply Hcritical. exists "bleeding", "BLEEDING".
    split; [do 3 right; left; reflexivity|].
    split; [| exists "Severe ", " from a cut"; reflexivity].
    same_case. }
  split; [exact H|]. rewrite <- H. apply Hsame; [reflexivity | same_case].
Defined.

(** C10. The tier depends on the symptoms only: two calls of
    [assess_urgency] on the same symptoms agree whatever the age and the
    medical history they are given. *)
Theorem assess_urgency_ignores_age_and_history (U : str_methods)
    (symptoms age1 history1 age2 history2 : option string) :
  assess_urgency U symptoms age1 history1 = assess_urgency U symptoms age2 history2.
Proof. reflexivity. Qed.

(** [determine_specialty] on a text with a first character: every outcome,
    read off the keyword lists in the order of the loops and the age. *)
Lemma determine_specialty_ladder (U : str_methods) (c : ascii) (s : string)
    (age : option string) :
  let text := str_lower U (String c s) in
  let label := determine_specialty U (Some (String c s)) age in
  let minor := exists years, age_reads U age years /\ (years < 18)%N in
  (label = inr "emergency" <-> mentions emergency_keywords text) /\
  (label = inr "cardiology" <->
     ~ mentions emergency_keywords text /\ mentions cardiology_keywords text) /\
  (label = inr "dermatology" <->
     ~ mentions emergency_keywords text /\ ~ mentions cardiology_keywords text /\
     mentions dermatology_keywords text) /\
  (label = inr "orthopedics" <->
     ~ mentions emergency_keywords text /\ ~ mentions cardiology_keywords text /\
     ~ mentions dermatology_keywords text /\ mentions orthopedics_keywords text) /\
  (label = inr "mental_health" <->
     ~ mentions emergency_keywords text /\ ~ mentions cardiology_keywords text /\
     ~ mentions dermatology_keywords text /\ ~ mentions orthopedics_keywords text /\
     mentions mental_health_keywords text) /\
  (label = inr "pediatrics" <-> unmatched_five text /\ minor) /\
  (label = inl ValueError <-> unmatched_five text /\ age_refused U age) /\
  (label = inr "gynecology" <->
     unmatched_five text /\ ~ minor /\ ~ age_refused U age /\
     mentions gynecology_keywords text) /\
  (label = inr "general" <->
     unmatched_five text /\ ~ minor /\ ~ age_refused U age /\
     ~ mentions gynecology_keywords text).
Proof.
  intros text label minor. subst label. unfold unmatched_five.
  change (determine_specialty U (Some (String c s)) age) with
    (if any_keyword_in emergency_keywords text then inr "emergency"
     else if any_keyword_in cardiology_keywords text then inr "cardiology"
     else if any_keyword_in dermatology_keywords text then inr "dermatology"
     else if any_keyword_in orthopedics_keywords text then inr "orthopedics"
     else if any_keyword_in mental_health_keywords text then inr "mental_health"
     else
       match age_below_18 U age with
       | inl e => inl e
       | inr true => inr "pediatrics"
       | inr false =>
           if any_keyword_in gynecology_keywords text then inr "gynecology"
           else @inr error string "general"
       end).
  split_on_loop emergency_keywords; [settle|].
  split_on_loop cardiology_keywords; [settle|].
  split_on_loop dermatology_keywords; [settle|].
  split_on_loop orthopedics_keywords; [settle|].
  split_on_loop mental_health_keywords; [settle|].
  pose proof (age_below_18_spec U age) as Hage. cbv zeta in Hage. fold minor in Hage.
  destruct (age_below_18 U age) as [[]|[|]]; destruct Hage as [Hage1 Hage2].
  - settle.
  - settle.
  - split_on_loop gynecology_keywords; settle.
Qed.

(** The five lists mention nothing in the empty text. *)
Lemma empty_text_unmatched : unmatched_five "".
Proof. repeat split; now apply empty_text_mentions_nothing. Qed.

(** On ASCII symptoms "none of the five lists" reads without [lower]. *)
Lemma unmatched_on_ascii (U : str_methods) (HU : on_ascii U) (text : string) :
  isascii text = true ->
  unmatched_five (str_lower U text) <->
  ~ mentions_in_any_case emergency_keywords text /\
  ~ mentions_in_any_case cardiology_keywords text /\
  ~ mentions_in_any_case dermatology_keywords text /\
  ~ mentions_in_any_case orthopedics_keywords text /\
  ~ mentions_in_any_case mental_health_keywords text.
Proof.
  intros Hascii. unfold unmatched_five.
  destruct keywords_are_small as (_ & _ & He & Hc & Hd & Ho & Hm & _).
  pose proof (mentions_on_ascii U HU _ text He Hascii).
  pose proof (mentions_on_ascii U HU _ text Hc Hascii).
  pose proof (mentions_on_ascii U HU _ text Hd Hascii).
  pose proof (mentions_on_ascii U HU _ text Ho Hascii).
  pose proof (mentions_on_ascii U HU _ text Hm Hascii).
  tauto.
Qed.

(** C2. [determine_specialty] reads the lists in the order emergency,
    cardiology, dermatology, orthopedics, mental_health and answers with
    the first list that has a keyword in the lowered symptoms; so a phrase
    of both the emergency and the cardiology list gives [emergency].  On
    ASCII symptoms the same reads without [lower]: the keyword is written
    in the symptoms in any case of its letters.
    ["severe chest pain and bleeding"] with age [""] gives [emergency]. *)
Theorem determine_specialty_priority (U : str_methods) (HU : on_ascii U)
    (symptoms : string) (age : option string) :
  let folded := str_lower U symptoms in
  let label := determine_specialty U (Some symptoms) age in
  (label = inr "emergency" <-> mentions emergency_keywords folded) /\
  (label = inr "cardiology" <->
     ~ mentions emergency_keywords folded /\ mentions cardiology_keywords folded) /\
  (label = inr "dermatology" <->
     ~ mentions emergency_keywords folded /\ ~ mentions cardiology_keywords folded /\
     mentions dermatology_keywords folded) /\
  (label = inr "orthopedics" <->
     ~ mentions emergency_keywords folded /\ ~ mentions cardiology_keywords folded /\
     ~ mentions dermatology_keywords folded /\ mentions orthopedics_keywords folded) /\
  (label = inr "mental_health" <->
     ~ mentions emergency_keywords folded /\ ~ mentions cardiology_keywords folded /\
     ~ mentions dermatology_keywords folded /\ ~ mentions orthopedics_keywords folded /\
     mentions mental_health_keywords folded) /\
  (forall phrase : string,
     In phrase emergency_keywords -> In phrase cardiology_keywords ->
     Substring phrase folded -> label = inr "emergency") /\
  (isascii symptoms = true ->
     (label = inr "emergency" <-> mentions_in_any_case emergency_keywords symptoms) /\
     (label = inr "cardiology" <->
        ~ mentions_in_any_case emergency_keywords symptoms /\
        mentions_in_any_case cardiology_keywords symptoms) /\
     (label = inr "dermatology" <->
        ~ mentions_in_any_case emergency_keywords symptoms /\
        ~ mentions_in_any_case cardiology_keywords symptoms /\
        mentions_in_any_case dermatology_keywords symptoms) /\
     (label = inr "orthopedics" <->
        ~ mentions_in_any_case emergency_keywords symptoms /\
        ~ mentions_in_any_case cardiology_keywords symptoms /\
        ~ mentions_in_any_case dermatology_keywords symptoms /\
        mentions_in_any_case orthopedics_keywords symptoms) /\
     (label = inr "mental_health" <->
        ~ mentions_in_any_case emergency_keywords symptoms /\
        ~ mentions_in_any_case cardiology_keywords symptoms /\
        ~ mentions_in_any_case dermatology_keywords symptoms /\
        ~ mentions_in_any_case orthopedics_keywords symptoms /\
        mentions_in_any_case mental_health_keywords symptoms) /\
     (forall phrase written : string,
        In phrase emergency_keywords -> In phrase cardiology_keywords ->
        caseless written phrase -> Substring written symptoms ->
        label = inr "emergency")) /\
  (In "chest pain" emergency_keywords /\ In "chest pain" cardiology_keywords) /\
  determine_specialty U (Some "severe chest pain and bleeding") (Some "") = inr "emergency".
Proof.
  intros folded label.
  assert (Hladder :
    (label = inr "emergency" <-> mentions emergency_keywords folded) /\
    (label = inr "cardiology" <->
       ~ mentions emergency_keywords folded /\ mentions cardiology_keywords folded) /\
    (label = inr "dermatology" <->
       ~ mentions emergency_keywords folded /\ ~ mentions cardiology_keywords folded /\
       mentions dermatology_keywords folded) /\
    (label = inr "orthopedics" <->
       ~ mentions emergency_keywords folded /\ ~ mentions cardiology_keywords folded /\
       ~ mentions dermatology_keywords folded /\ mentions orthopedics_keywords folded) /\
    (label = inr "mental_health" <->
       ~ mentions emergency_keywords folded /\ ~ mentions cardiology_keywords folded /\
       ~ mentions dermatology_keywords folded /\ ~ mentions orthopedics_keywords folded /\
       mentions mental_health_keywords folded)).
  { subst folded label. destruct symptoms as [|c s].
    - destruct empty_text_unmatched as (He & Hc & Hd & Ho & Hm).
      rewrite (lower_on_ascii U HU "" eq_refl). change (lower "") with "".
      change (determine_specialty U (Some "") age) with (@inr error string "general").
      settle.
    - pose proof (determine_specialty_ladder U c s age) as H. cbv zeta in H. tauto. }
  destruct Hladder as (He & Hc & Hd & Ho & Hm).
  split; [exact He|]. split; [exact Hc|]. split; [exact Hd|].
  split; [exact Ho|]. split; [exact Hm|].
  split; [| split; [| split; [split |]]].
  - intros phrase Hin _ Hsub. apply He. now exists phrase.
  - intros Hascii.
    destruct keywords_are_small as (_ & _ & Hes & Hcs & Hds & Hos & Hms & _).
    pose proof (mentions_on_ascii U HU _ symptoms Hes Hascii) as Ee.
    pose proof (mentions_on_ascii U HU _ symptoms Hcs Hascii) as Ec.
    pose proof (mentions_on_ascii U HU _ symptoms Hds Hascii) as Ed.
    pose proof (mentions_on_ascii U HU _ symptoms Hos Hascii) as Eo.
    pose proof (mentions_on_ascii U HU _ symptoms Hms Hascii) as Em.
    fold folded in Ee, Ec, Ed, Eo, Em.
    split; [tauto|]. split; [tauto|]. split; [tauto|]. split; [tauto|].
    split; [tauto|].
    intros phrase written Hin _ Hcase Hsub. apply He, Ee. now exists phrase, written.
  - left. reflexivity.
  - right. right. left. reflexivity.
  - run_on_ascii HU.
Qed.

(** C3. [determine_specialty] answers [pediatrics] exactly when the
    symptoms are not empty, none of the five lists (emergency, cardiology,
    dermatology, orthopedics, mental_health) has a keyword in the lowered
    symptoms, and the age is taken for digits and read as a number below
    18; where the age is taken for digits and [int] refuses it, the call
    raises [ValueError] instead.  For ASCII symptoms and an ASCII age of up
    to 640 characters the age is read exactly when it is a numeral, and
    never refused.  A keyword wins over the age (["itchy rash on arm"],
    age ["10"]: [dermatology]); empty or missing symptoms give [general]
    at every age. *)
Theorem pediatrics_exactly_for_unmatched_minors (U : str_methods) (HU : on_ascii U)
    (symptoms age : option string) :
  (determine_specialty U symptoms age = inr "pediatrics" <->
   exists (text : string) (years : N),
     symptoms = Some text /\ text <> "" /\ unmatched_five (str_lower U text) /\
     age_reads U age years /\ (years < 18)%N) /\
  (determine_specialty U symptoms age = inl ValueError <->
   exists text : string,
     symptoms = Some text /\ text <> "" /\ unmatched_five (str_lower U text) /\
     age_refused U age) /\
  (forall text years : string,
     symptoms = Some text -> age = Some years ->
     isascii text = true -> isascii years = true -> String.length years <= 640 ->
     (determine_specialty U symptoms age = inr "pediatrics" <->
      text <> "" /\
      ~ mentions_in_any_case emergency_keywords text /\
      ~ mentions_in_any_case cardiology_keywords text /\
      ~ mentions_in_any_case dermatology_keywords text /\
      ~ mentions_in_any_case orthopedics_keywords text /\
      ~ mentions_in_any_case mental_health_keywords text /\
      minor_age age) /\
     determine_specialty U symptoms age <> inl ValueError) /\
  determine_specialty U (Some "itchy rash on arm") (Some "10") = inr "dermatology" /\
  determine_specialty U (Some "annual checkup") (Some "10") = inr "pediatrics" /\
  determine_specialty U None age = inr "general" /\
  determine_specialty U (Some "") age = inr "general".
Proof.
  assert (Hgeneral :
    (determine_specialty U symptoms age = inr "pediatrics" <->
     exists (text : string) (years : N),
       symptoms = Some text /\ text <> "" /\ unmatched_five (str_lower U text) /\
       age_reads U age years /\ (years < 18)%N) /\
    (determine_specialty U symptoms age = inl ValueError <->
     exists text : string,
       symptoms = Some text /\ text <> "" /\ unmatched_five (str_lower U text) /\
       age_refused U age)).
  { destruct symptoms as [[|c s]|].
    - change (determine_specialty U (Some "") age) with (@inr error string "general").
      split; (split; [discriminate|]).
      + intros (text & years & Htext & Hne & _). injection Htext as <-. now destruct Hne.
      + intros (text & Htext & Hne & _). injection Htext as <-. now destruct Hne.
    - pose proof (determine_specialty_ladder U c s age) as H. cbv zeta in H.
      destruct H as (_ & _ & _ & _ & _ & Hp & Hv & _). rewrite Hp, Hv. split; split.
      + intros (Hun & years & Hread & Hlt). exists (String c s), years.
        split; [reflexivity|]. split; [discriminate|]. tauto.
      + intros (text & years & Htext & _ & Hun & Hread & Hlt). injection Htext as <-.
        split; [exact Hun|]. now exists years.
      + intros (Hun & Href). exists (String c s).
        split; [reflexivity|]. split; [discriminate|]. tauto.
      + intros (text & Htext & _ & Hun & Href). injection Htext as <-. tauto.
    - change (determine_specialty U None age) with (@inr error string "general").
      split; (split; [discriminate|]).
      + intros (text & years & Htext & _). discriminate Htext.
      + intros (text & Htext & _). discriminate Htext. }
  destruct Hgeneral as (Hp & Hv).
  split; [exact Hp|]. split; [exact Hv|].
  split; [| repeat split; first [reflexivity | run_on_ascii HU]].
  intros text years -> -> Htext Hyears Hlen.
  destruct (age_reads_ascii U HU years Hyears Hlen) as (Hread & Hnever).
  pose proof (unmatched_on_ascii U HU text Htext) as Hun.
  split.
  - rewrite Hp. split.
    + intros (t & n & Ht & Hne & Hu & Hr & Hlt). injection Ht as <-.
      split; [exact Hne|]. apply Hun in Hu. repeat (split; [tauto|]).
      exists years, n. split; [reflexivity|]. split; [now apply Hread | exact Hlt].
    + intros (Hne & H1 & H2 & H3 & H4 & H5 & (y & n & Hy & Hnum & Hlt)).
      injection Hy as <-. exists text, n.
      split; [reflexivity|]. split; [exact Hne|]. split; [apply Hun; tauto|].
      split; [now apply Hread | exact Hlt].
  - rewrite Hv. intros (t & _ & _ & _ & Href). now apply Hnever.
Qed.

(** A phrase of both lists, in capitals, in a longer text. *)
Lemma determine_specialty_priority_sample :
  determine_specialty Sample.ascii_methods (Some "Sudden CHEST PAIN at night") None
  = inr "emergency".
Proof.
  destruct (determine_specialty_priority Sample.ascii_methods ascii_methods_on_ascii
              "Sudden CHEST PAIN at night" None)
    as (_ & _ & _ & _ & _ & _ & Hascii & _).
  destruct (Hascii eq_refl) as (_ & _ & _ & _ & _ & Hshared).
  apply (Hshared "chest pain" "CHEST PAIN").
  - left. reflexivity.
  - right. right. left. reflexivity.
  - same_case.
  - exists "Sudden ", " at night". reflexivity.
Defined.

(** A child without a keyword of the five lists, and an age that is no
    numeral. *)
Lemma pediatrics_sample :
  determine_specialty Sample.ascii_methods (Some "Annual Checkup") (Some "09")
  = inr "pediatrics" /\
  determine_specialty Sample.ascii_methods (Some "Annual Checkup") (Some "nine")
  <> inl ValueError.
Proof.
  destruct (pediatrics_exactly_for_unmatched_minors Sample.ascii_methods
              ascii_methods_on_ascii (Some "Annual Checkup") (Some "nine"))
    as (_ & _ & Hnine & _).
  destruct (pediatrics_exactly_for_unmatched_minors Sample.ascii_methods
              ascii_methods_on_ascii (Some "Annual Checkup") (Some "09"))
    as (Hgeneral & _).
  split.
  - apply Hgeneral. exists "Annual Checkup", 9%N.
    split; [reflexivity|]. split; [discriminate|].
    split; [repeat split; apply any_keyword_in_not; vm_compute; reflexivity|].
    split; [| reflexivity]. exists "09". repeat split. discriminate.
  - apply (Hnine "Annual Checkup" "nine"); try reflexivity.
    apply Nat.leb_le. reflexivity.
Defined.

Example triage_scenario :
  let text := "I'm Maria, I have severe chest pain and shortness of breath, I'm 34" in
  assess_urgency Sample.ascii_methods (Some text) (Some "34") None = "critical" /\
  determine_specialty Sample.ascii_methods (Some text) (Some "34") = inr "emergency".
Proof. split; vm_compute; reflexivity. Qed.

Example triage_other_labels :
  let U := Sample.ascii_methods in
  assess_urgency U (Some "High FEVER since monday") None None = "high" /\
  assess_urgency U (Some "annual checkup") None None = "medium" /\
  determine_specialty U (Some "my knee hurts") (Some "10") = inr "orthopedics" /\
  determine_specialty U (Some "annual checkup") (Some "18") = inr "general" /\
  determine_specialty U (Some "annual checkup") (Some "ten") = inr "general" /\
  determine_specialty U (Some "pregnancy test") (Some "017") = inr "pediatrics" /\
  determine_specialty U (Some "pregnancy test") (Some "30") = inr "gynecology".
Proof. repeat split; vm_compute; reflexivity. Qed.

(** An interpreter whose [isdigit] takes the age for digits and whose [int]
    refuses it, as CPython does with a superscript two: the call raises. *)
Example age_that_int_refuses :
  let U := {| str_lower := lower; str_isdigit := fun _ => true;
              int_of_str := fun _ => None |} in
  determine_specialty U (Some "annual checkup") (Some "²") = inl ValueError /\
  determine_specialty U (Some "itchy rash") (Some "²") = inr "dermatology".
Proof. split; vm_compute; reflexivity. Qed.

End TriageFacts.

(** ** Entity extraction *)
Section ExtractFacts.
Import PyStr Spec Re Extract.


Example search_name_after_introduction :
  search true (lit "I'm" ++ [plus [Space]] ++ word_group)%list
    "I'm Maria, I have severe chest pain and shortness of breath, I'm 34"
  = Some {| group0 := "I'm Maria"; group1 := "Maria" |}.
Proof. vm_compute. reflexivity. Qed.

Example search_backtracks_in_email :
  option_map group0 (search false email_pattern "write to x@y.abc_d or x@y.ab-c")
  = Some "x@y.ab".
Proof. vm_compute. reflexivity. Qed.

Example extract_all_three :
  let details :=
    extract_patient_details
      "hello, my NAME  is bob_7! mail: a.b-c@ex-ample.co.uk, tel 555-123-4567." in
  (details !! "name", details !! "email", details !! "phone")
  = (Some "bob_7", Some "a.b-c@ex-ample.co.uk", Some "555-123-4567").
Proof. vm_compute. reflexivity. Qed.

Example extract_second_phone_pattern :
  extract_patient_details "i AM   Ann call5551234567 or x(555)1234567" !! "phone"
  = Some "(555)1234567".
Proof. vm_compute. reflexivity. Qed.



(** *** The matcher returns matches *)

Lemma repeat_greedy_sound {R : Type} (ignorecase : bool) (class : list atom)
    (s : string) :
  forall (lo : nat) (hi : option nat) (previous : option ascii)
         (k : option ascii -> string -> option R) (r : R),
    repeat_greedy ignorecase class lo hi previous s k = Some r ->
    exists taken rest,
      s = taken ++ rest /\
      all_chars (class_matches ignorecase class) taken = true /\
      lo <= String.length taken /\
      (forall most, hi = Some most -> String.length taken <= most) /\
      k (last_char previous taken) rest = Some r.
Proof.
  assert (Hstop : forall lo hi previous s' (k : option ascii -> string -> option R) r,
             stop_here lo previous s' k = Some r ->
             exists taken rest,
               s' = taken ++ rest /\
               all_chars (class_matches ignorecase class) taken = true /\
               lo <= String.length taken /\
               (forall most, hi = Some most -> String.length taken <= most) /\
               k (last_char previous taken) rest = Some r).
  { intros lo hi previous s' k r H. destruct lo; [| discriminate H].
    exists "", s'. split; [reflexivity|]. split; [reflexivity|].
    split; [simpl; lia|]. split; [intros; simpl; lia | exact H]. }
  induction s as [|c s IH]; intros lo hi previous k r H; cbn [repeat_greedy] in H.
  - now apply Hstop.
  - destruct (class_matches ignorecase class c && may_take hi) eqn:Hc;
      [| now apply Hstop].
    destruct (repeat_greedy ignorecase class (Nat.pred lo) (option_map Nat.pred hi)
                (Some c) s k) as [r'|] eqn:Hrec; [| now apply Hstop].
    injection H as <-. apply IH in Hrec as (taken & rest & -> & Hall & Hlo & Hhi & Hk).
    apply andb_true_iff in Hc as [Hclass Hmay].
    exists (String c taken), rest. simpl. rewrite Hclass, Hall.
    split; [reflexivity|]. split; [reflexivity|]. split; [lia|].
    split; [| exact Hk].
    intros most ->. destruct most as [|most]; [discriminate Hmay|].
    specialize (Hhi most eq_refl). lia.
Qed.

Lemma match_nodes_sound (ignorecase : bool) (p : pattern) :
  forall (caps : captures) (previous : option ascii) (s rest : string)
         (caps' : captures),
    match_nodes ignorecase p caps previous s = Some (rest, caps') ->
    Matches ignorecase p caps previous s rest caps'.
Proof.
  induction p as [|n p IH]; intros caps previous s rest caps' H; cbn [match_nodes] in H.
  - injection H as <- <-. constructor.
  - destruct n as [|class lo hi| |].
    + destruct (at_boundary previous s) eqn:Hb; [| discriminate H].
      constructor; [exact Hb | now apply IH].
    + apply repeat_greedy_sound in H as (taken & s' & -> & Hall & Hlo & Hhi & Hk).
      econstructor; [exact Hall | exact Hlo | exact Hhi | reflexivity | now apply IH].
    + constructor. now apply IH.
    + constructor. now apply IH.
Qed.

Lemma last_char_append (previous : option ascii) (a b : string) :
  last_char previous (a ++ b) = last_char (last_char previous a) b.
Proof. revert previous. induction a as [|c a IH]; intros previous; simpl; [reflexivity | apply IH]. Qed.

Lemma search_from_sound (ignorecase : bool) (p : pattern) (s : string) :
  forall (previous : option ascii) (m : match_result),
    search_from ignorecase p previous s = Some m ->
    exists before from rest caps',
      s = before ++ from /\
      Matches ignorecase p no_captures (last_char previous before) from rest caps' /\
      m = result_of from rest caps'.
Proof.
  induction s as [|c s IH]; intros previous m H; cbn [search_from] in H.
  - destruct (match_nodes ignorecase p no_captures previous "") as [[rest caps']|] eqn:Hm;
      [| discriminate H].
    injection H as <-. apply match_nodes_sound in Hm.
    exists "", "", rest, caps'. repeat split. exact Hm.
  - destruct (match_nodes ignorecase p no_captures previous (String c s))
      as [[rest caps']|] eqn:Hm.
    + injection H as <-. apply match_nodes_sound in Hm.
      exists "", (String c s), rest, caps'. repeat split. exact Hm.
    + apply IH in H as (before & from & rest & caps' & -> & Hm' & ->).
      exists (String c before), from, rest, caps'. repeat split. exact Hm'.
Qed.


(** *** The matcher finds the matches there are *)






(** *** The three fields *)




(** A transcript with a name and nothing else to find: the other fields
    keep their defaults. *)
Example extract_name_only :
  let details := extract_patient_details "Good morning, this is Noor speaking" in
  details = <["name" := "Noor"]> default_details.
Proof. vm_compute. reflexivity. Qed.

End ExtractFacts.

(** ** The store, the mail and the coordinator *)
Section ClinicFacts.
Import PyStr Spec Clinic Props.

(** *** What a step leaves alone *)

Lemma log_system_message_last (message : string) (w : world) :
  last_log_says (log_system_message message w) message.
Proof.
  exists (system_logs w), (hms (clock w (ticks w))). reflexivity.
Qed.

Lemma create_admin_notification_email_only_logged
    (name : string) (age gender phone email insurance symptoms medical_history : option string)
    (specialty urgency : string) (w : world) :
  only_logged w
    (snd (create_admin_notification_email name age gender phone email insurance
            symptoms medical_history specialty urgency w)).
Proof. repeat split. Qed.

(** *** Sending *)

Lemma send_email_message_spec (cfg : config) (to_email subject body : string)
    (cc : option string) (log_prefix : string) (w : world) :
  let m := {| mail_to := to_email; mail_subject := subject; mail_body := body;
              mail_cc := cc |} in
  let res := send_email_message cfg to_email subject body cc log_prefix w in
  db (snd res) = db w /\ smtp (snd res) = smtp w /\ clock (snd res) = clock w /\
  requested (snd res) = (requested w ++ [m])%list /\
  (if EMAIL_ENABLED cfg then
     match smtp w m with
     | None =>
         fst res = "Email sent successfully to " ++ to_email /\
         delivered (snd res) = (delivered w ++ [m])%list
     | Some e =>
         fst res = "Failed to send email: " ++ e /\ delivered (snd res) = delivered w
     end
   else
     fst res = "Email disabled. Would send to " ++ to_email ++ ": " ++ subject /\
     delivered (snd res) = delivered w).
Proof.
  intros m res. subst res. unfold send_email_message. fold m.
  destruct (EMAIL_ENABLED cfg); cbn [negb].
  - change (smtp (log_system_message
                    (log_prefix ++ ": Sending to " ++ to_email ++ " - " ++ subject)
                    (with_requested (requested w ++ [m]) w)) m) with (smtp w m).
    destruct (smtp w m) as [e|]; repeat split.
  - repeat split.
Qed.

(** [EMAIL_ENABLED] already says that [EMAIL_USER] is set. *)
Lemma enabled_has_user (cfg : config) :
  negb (EMAIL_ENABLED cfg) || negb (truthy (EMAIL_USER cfg)) = negb (EMAIL_ENABLED cfg).
Proof. unfold EMAIL_ENABLED. now destruct (truthy (EMAIL_USER cfg)), (truthy (EMAIL_APP_PASSWORD cfg)). Qed.

Lemma send_admin_notification_spec (cfg : config) (name : string)
    (patient_info : kwargs) (w : world) (specialty urgency : string) :
  existsb (String.eqb "name") (map fst patient_info) = false ->
  unexpected_keyword patient_info = None ->
  get patient_info "specialty" (Some "general") = Some specialty ->
  get patient_info "urgency" (Some "medium") = Some urgency ->
  let res := send_admin_notification cfg name patient_info w in
  db (snd res) = db w /\ smtp (snd res) = smtp w /\ clock (snd res) = clock w /\
  (if EMAIL_ENABLED cfg then
     exists body : string,
       let m := {| mail_to := default "" (EMAIL_USER cfg);
                   mail_subject := subject_of name specialty urgency;
                   mail_body := body; mail_cc := None |} in
       requested (snd res) = (requested w ++ [m])%list /\
       match smtp w m with
       | None =>
           fst res = inr ("Email sent successfully to " ++ default "" (EMAIL_USER cfg)) /\
           delivered (snd res) = (delivered w ++ [m])%list
       | Some e =>
           fst res = inr ("Failed to send email: " ++ e) /\
           delivered (snd res) = delivered w
       end
   else res = (inr "Email not configured", w)).
Proof.
  intros Hname Hkeys Hsp Hur res. subst res. unfold send_admin_notification.
  rewrite Hname, enabled_has_user, Hsp, Hkeys, Hur.
  destruct (EMAIL_ENABLED cfg) eqn:Hen; cbn [negb]; [| repeat split].
  pose proof (create_admin_notification_email_only_logged name
                (kwarg patient_info "age") (kwarg patient_info "gender")
                (kwarg patient_info "phone") (kwarg patient_info "email")
                (kwarg patient_info "insurance") (kwarg patient_info "symptoms")
                (kwarg patient_info "medical_history") specialty urgency w) as Hbody.
  destruct (create_admin_notification_email name
              (kwarg patient_info "age") (kwarg patient_info "gender")
              (kwarg patient_info "phone") (kwarg patient_info "email")
              (kwarg patient_info "insurance") (kwarg patient_info "symptoms")
              (kwarg patient_info "medical_history") specialty urgency w)
    as [body w1].
  cbn [snd] in Hbody. destruct Hbody as (Hdb & Hsmtp & Hclock & Hreq & Hdel).
  match goal with
  | |- context [send_email_message cfg ?to ?subj ?b ?cc ?pre ?w2] =>
      pose proof (send_email_message_spec cfg to subj b cc pre w2) as Hsend;
      cbv zeta in Hsend;
      destruct (send_email_message cfg to subj b cc pre w2) as [outcome w3]
  end.
  rewrite Hen in Hsend. cbn [fst snd] in *.
  cbn [db smtp clock requested delivered log_system_message now with_logs with_ticks]
    in Hsend.
  destruct Hsend as (Hdb3 & Hsmtp3 & Hclock3 & Hreq3 & Hout).
  rewrite Hdb, Hsmtp, Hclock, Hreq, Hdel in *.
  repeat split; try assumption.
  exists body. cbv zeta. split; [exact Hreq3|].
  destruct (smtp w _) as [e|]; destruct Hout as [-> Hdel3]; split; auto.
Qed.


(** *** Opening the store *)

(** [init_database] creates the table where it is missing, keeps a table
    that is there with its rows, and reports a store it cannot open. *)
Lemma init_database_spec (cfg : config) (w : world) :
  let res := init_database cfg w in
  match db w with
  | NoTable => fst res = true /\ db (snd res) = Patients [] 0
  | Patients _ _ | ReadOnly (Some _) => fst res = true /\ db (snd res) = db w
  | Unusable reason | Corrupt reason =>
      fst res = false /\ db (snd res) = db w /\
      last_log_says (snd res) ("DATABASE ERROR: Failed to initialize - " ++ reason)
  | ReadOnly None =>
      fst res = false /\ db (snd res) = db w /\
      last_log_says (snd res) ("DATABASE ERROR: Failed to initialize - " ++ read_only)
  end.
Proof.
  intros res. subst res. unfold init_database.
  destruct (db w) as [reason| |rows sequence|[rows|]|reason] eqn:Hdb;
    cbn [create_table fst snd].
  - split; [reflexivity|]. split; [exact Hdb | apply log_system_message_last].
  - split; reflexivity.
  - split; reflexivity.
  - split; reflexivity.
  - split; [reflexivity|]. split; [exact Hdb | apply log_system_message_last].
  - split; [reflexivity|]. split; [exact Hdb | apply log_system_message_last].
Qed.

Lemma init_database_idempotent (cfg : config) (w : world) :
  db (snd (init_database cfg (snd (init_database cfg w))))
  = db (snd (init_database cfg w)).
Proof.
  unfold init_database at 2 3.
  destruct (db w) as [reason| |rows sequence|[rows|]|reason] eqn:Hdb; cbn [create_table snd];
    unfold init_database;
    cbn [db with_db with_logs with_ticks log_system_message now fst snd];
    rewrite ?Hdb; cbn [create_table snd db with_db with_logs with_ticks
                       log_system_message now];
    rewrite ?Hdb; reflexivity.
Qed.

(** *** Listing *)

Lemma string_leb_trans (a b c : string) :
  String.leb a b = true -> String.leb b c = true -> String.leb a c = true.
Proof.
  unfold String.leb. revert b c.
  induction a as [|x a IH]; intros [|y b] [|z c]; simpl; try congruence.
  unfold Ascii.compare.
  destruct (N.compare_spec (N_of_ascii x) (N_of_ascii y)) as [Hxy|Hxy|Hxy];
    destruct (N.compare_spec (N_of_ascii y) (N_of_ascii z)) as [Hyz|Hyz|Hyz];
    destruct (N.compare_spec (N_of_ascii x) (N_of_ascii z)) as [Hxz|Hxz|Hxz];
    try congruence; try lia; apply IH.
Qed.

Lemma not_older_trans (a b c : patient) :
  not_older a b -> not_older b c -> not_older a c.
Proof. unfold not_older. intros Hab Hbc. exact (string_leb_trans _ _ _ Hbc Hab). Qed.

Lemma insert_newest_first_perm (r : patient) (l : list patient) :
  Permutation (r :: l) (insert_newest_first r l).
Proof.
  induction l as [|r' l IH]; simpl; [reflexivity|].
  destruct (String.leb (timestamp r') (timestamp r)); [reflexivity|].
  rewrite perm_swap. now apply perm_skip.
Qed.

Lemma newest_first_perm (rows : list patient) :
  Permutation rows (newest_first rows).
Proof.
  induction rows as [|r rows IH]; simpl; [reflexivity|].
  rewrite <- insert_newest_first_perm. now apply perm_skip.
Qed.

Lemma insert_newest_first_sorted (r : patient) (l : list patient) :
  StronglySorted not_older l -> StronglySorted not_older (insert_newest_first r l).
Proof.
  induction 1 as [|r' l Hl IH Hall]; simpl.
  - repeat constructor.
  - destruct (String.leb (timestamp r') (timestamp r)) eqn:Hcmp.
    + constructor; [now constructor|].
      constructor; [exact Hcmp|].
      eapply Forall_impl; [exact Hall|].
      intros later Hlater. eapply not_older_trans; [exact Hcmp | exact Hlater].
    + constructor; [exact IH|].
      apply (Permutation_Forall (insert_newest_first_perm r l)).
      constructor; [| exact Hall].
      unfold not_older. destruct (String.leb_total (timestamp r) (timestamp r'));
        congruence.
Qed.

Lemma newest_first_sorted (rows : list patient) :
  StronglySorted not_older (newest_first rows).
Proof.
  induction rows as [|r rows IH]; simpl; [constructor|].
  now apply insert_newest_first_sorted.
Qed.

Example newest_first_orders_three :
  let row (n : Z) (stamp : string) :=
    {| id := n; timestamp := stamp; name := "x"; age := ""; gender := "";
       phone := ""; email := ""; insurance := ""; symptoms := "";
       medical_history := ""; specialty := "general"; urgency := "medium";
       status := "pending" |} in
  map Clinic.id
    (newest_first [row 1%Z "2024-05-01 09:59:59"; row 2%Z "2024-05-02 00:00:00";
                   row 3%Z "2024-05-01 10:00:00"])
  = [2; 3; 1]%Z.
Proof. vm_compute. reflexivity. Qed.

Lemma get_all_patients_spec (w : world) :
  let res := get_all_patients w in
  only_logged w (snd res) /\
  match stored (db w) with
  | Some rows => fst res = newest_first rows
  | None =>
      fst res = [] /\
      exists diagnostic,
        listing_error (db w) = Some diagnostic /\
        last_log_says (snd res) ("DATABASE ERROR: " ++ diagnostic)
  end.
Proof.
  intros res. subst res. unfold get_all_patients.
  change (db (log_system_message "DATABASE: Retrieving all patient records" w))
    with (db w).
  destruct (db w) as [reason| |rows sequence|[rows|]|reason] eqn:Hdb;
    cbn [read_patients connect read_sql_query select_all stored listing_error fst snd];
    (split; [repeat split; try exact Hdb|]);
    try reflexivity;
    (split; [reflexivity|]); eexists; (split; [reflexivity|]);
    apply log_system_message_last.
Qed.

(** C8. [get_all_patients] lists the rows of the table, each once, ordered
    by time stamp with the newest first, and changes nothing but the log.
    On a table without rows it returns the empty list.  Where the file
    cannot be opened, holds no table or is not a database it returns the
    empty list as well and the newest log line is the [DATABASE ERROR]
    diagnostic: the text of [sqlite3.connect], or pandas' text around the
    error of the statement. *)
Theorem get_all_patients_newest_first_or_empty (w : world) :
  let listed := fst (get_all_patients w) in
  let w' := snd (get_all_patients w) in
  only_logged w w' /\
  StronglySorted not_older listed /\
  match stored (db w) with
  | Some rows => Permutation rows listed /\ (rows = [] -> listed = [])
  | None =>
      listed = [] /\
      exists diagnostic,
        listing_error (db w) = Some diagnostic /\
        last_log_says w' ("DATABASE ERROR: " ++ diagnostic)
  end /\
  (forall reason, db w = Unusable reason ->
     listed = [] /\ last_log_says w' ("DATABASE ERROR: " ++ reason)) /\
  (db w = NoTable \/ db w = ReadOnly None ->
     listed = [] /\
     last_log_says w'
       ("DATABASE ERROR: Execution failed on sql "
        ++ "'SELECT * FROM patients ORDER BY timestamp DESC': no such table: patients")) /\
  (forall reason, db w = Corrupt reason ->
     listed = [] /\
     last_log_says w'
       ("DATABASE ERROR: Execution failed on sql "
        ++ "'SELECT * FROM patients ORDER BY timestamp DESC': " ++ reason)).
Proof.
  intros listed w'. subst listed w'.
  destruct (get_all_patients_spec w) as [Hframe Hlisted].
  split; [exact Hframe|].
  assert (Hsorted : StronglySorted not_older (fst (get_all_patients w))).
  { destruct (stored (db w)) as [rows|].
    - rewrite Hlisted. apply newest_first_sorted.
    - destruct Hlisted as [-> _]. constructor. }
  split; [exact Hsorted|]. split; [| split; [| split]].
  - destruct (stored (db w)) as [rows|]; [| exact Hlisted].
    rewrite Hlisted. split; [apply newest_first_perm | intros ->; reflexivity].
  - intros reason Hdb. rewrite Hdb in Hlisted. cbn [stored listing_error] in Hlisted.
    destruct Hlisted as (Hnil & diagnostic & Hd & Hlog). injection Hd as <-. now split.
  - intros Hdb.
    assert (Hno : stored (db w) = None /\
                  listing_error (db w)
                  = Some ("Execution failed on sql "
                          ++ "'SELECT * FROM patients ORDER BY timestamp DESC': "
                          ++ "no such table: patients"))
      by (destruct Hdb as [-> | ->]; split; reflexivity).
    destruct Hno as [Hs He]. rewrite Hs, He in Hlisted.
    destruct Hlisted as (Hnil & diagnostic & Hd & Hlog). injection Hd as <-. now split.
  - intros reason Hdb. rewrite Hdb in Hlisted. cbn [stored listing_error] in Hlisted.
    destruct Hlisted as (Hnil & diagnostic & Hd & Hlog). injection Hd as <-. now split.
Qed.

(** A file that is not a database: the statement raises, pandas words the
    diagnostic, and nothing is listed. *)
Example listing_a_file_that_is_no_database :
  let w := {| db := Corrupt "file is not a database"; system_logs := []; ticks := 0;
              clock := Sample.sample_clock; smtp := fun _ => None;
              requested := []; delivered := [] |} in
  fst (get_all_patients w) = [] /\
  system_logs (snd (get_all_patients w))
  = [ "[10:00:00] DATABASE: Retrieving all patient records";
      "[10:00:01] DATABASE ERROR: Execution failed on sql "
      ++ "'SELECT * FROM patients ORDER BY timestamp DESC': file is not a database" ] /\
  fst (init_database Sample.cfg_mail w) = false.
Proof. repeat split. Qed.

(** *** One intake on a store that holds the table *)

Lemma patient_info_accepted
    (age gender phone email insurance symptoms medical_history : option string)
    (specialty urgency : string) :
  let patient_info :=
    patient_info_of age gender phone email insurance symptoms medical_history
      specialty urgency in
  existsb (String.eqb "name") (map fst patient_info) = false /\
  unexpected_keyword patient_info = None /\
  get patient_info "specialty" (Some "general") = Some specialty /\
  get patient_info "urgency" (Some "medium") = Some urgency.
Proof. repeat split. Qed.

Lemma or_else_empty (v : option string) : or_else v "" = default "" v.
Proof. destruct v as [[|c s]|]; reflexivity. Qed.

Lemma largest_id_bounds (rows : list patient) (r : patient) :
  In r rows -> (id r <= largest_id rows)%Z.
Proof.
  induction rows as [|r' rows IH]; simpl; [intros []|].
  intros [<- | Hin]; [lia|]. apply IH in Hin. lia.
Qed.

Lemma next_id_fresh (rows : list patient) (sequence : Z) :
  (sequence < next_id rows sequence)%Z /\
  forall r, In r rows -> id r <> next_id rows sequence.
Proof.
  unfold next_id. split; [lia|].
  intros r Hin. apply largest_id_bounds in Hin. lia.
Qed.

Section Intake.

Variable cfg : config.
Variable name : string.
Variables age gender phone email insurance symptoms medical_history : option string.
Variables specialty urgency : string.
Variable w : world.
Variable rows : list patient.
Variable sequence : Z.

(** The table [patients] exists, with [rows] in it. *)
Hypothesis store_ready : db w = Patients rows sequence.

Lemma save_patient_to_database_spec :
  let res :=
    save_patient_to_database cfg name age gender phone email insurance symptoms
      medical_history specialty urgency w in
  let row :=
    {| Clinic.id := next_id rows sequence; Clinic.timestamp := clock w (ticks w);
       Clinic.name := name; Clinic.age := or_else age "";
       Clinic.gender := or_else gender ""; Clinic.phone := or_else phone "";
       Clinic.email := or_else email ""; Clinic.insurance := or_else insurance "";
       Clinic.symptoms := or_else symptoms "";
       Clinic.medical_history := or_else medical_history "";
       Clinic.specialty := specialty; Clinic.urgency := urgency;
       Clinic.status := "pending" |} in
  fst res = "✅ Patient record for " ++ name ++ " successfully stored and admin notified" /\
  db (snd res) = Patients (rows ++ [row]) (next_id rows sequence) /\
  smtp (snd res) = smtp w /\ clock (snd res) = clock w /\
  (if EMAIL_ENABLED cfg then
     exists body : string,
       let m := {| mail_to := default "" (EMAIL_USER cfg);
                   mail_subject := subject_of name specialty urgency;
                   mail_body := body; mail_cc := None |} in
       requested (snd res) = (requested w ++ [m])%list /\
       match smtp w m with
       | None =>
           delivered (snd res) = (delivered w ++ [m])%list /\
           last_log_says (snd res)
             ("ADMIN EMAIL: Email sent successfully to " ++ default "" (EMAIL_USER cfg))
       | Some e =>
           delivered (snd res) = delivered w /\
           last_log_says (snd res) ("ADMIN EMAIL: Failed to send email: " ++ e)
       end
   else
     requested (snd res) = requested w /\ delivered (snd res) = delivered w /\
     last_log_says (snd res) "ADMIN EMAIL: Email not configured").
Proof.
  intros res row. subst res. unfold save_patient_to_database.
  cbn [now fst snd log_system_message with_logs with_ticks db].
  rewrite store_ready. cbn [insert_patient]. fold row.
  match goal with
  | |- context [send_admin_notification cfg name ?info ?w2] =>
      destruct (patient_info_accepted age gender phone email insurance symptoms
                  medical_history specialty urgency) as (Hn & Hk & Hsp & Hur);
      cbv zeta in Hn, Hk, Hsp, Hur;
      pose proof (send_admin_notification_spec cfg name info w2 specialty urgency
                    Hn Hk Hsp Hur) as Hsend;
      cbv zeta in Hsend; clear Hn Hk Hsp Hur;
      destruct (send_admin_notification cfg name info w2) as [email_result w3]
  end.
  cbn [fst snd db smtp clock requested delivered with_db with_logs with_ticks] in Hsend.
  destruct Hsend as (Hdb3 & Hsmtp3 & Hclock3 & Hout).
  destruct (EMAIL_ENABLED cfg).
  - destruct Hout as (body & Hreq & Hout). cbv zeta in Hreq, Hout.
    destruct (smtp w _) as [e|] eqn:Hsmtp; destruct Hout as [-> Hdel];
      cbn [fst snd db smtp clock requested delivered log_system_message now with_logs
           with_ticks];
      (split; [reflexivity|]); (split; [exact Hdb3|]); (split; [exact Hsmtp3|]);
      (split; [exact Hclock3|]); exists body; cbv zeta; (split; [exact Hreq|]);
      rewrite Hsmtp; (split; [exact Hdel | apply log_system_message_last]).
  - injection Hout as Hresult Hworld. subst email_result w3.
    cbn [fst snd db smtp clock requested delivered log_system_message now with_logs
         with_ticks with_db].
    repeat split. eexists _, _. reflexivity.
Qed.

(** C4. After [save_patient_to_database] on a store that holds the table
    (the insert succeeds and the success message is returned),
    [get_all_patients] lists a row with the name, specialty and urgency
    given, every optional field as given or [""] when it was missing, the
    status ["pending"], and an id above the counter that no earlier row
    has and no other listed row shares. *)
Theorem save_then_list_roundtrip :
  let saved :=
    save_patient_to_database cfg name age gender phone email insurance symptoms
      medical_history specialty urgency w in
  let listed := fst (get_all_patients (snd saved)) in
  fst saved = "✅ Patient record for " ++ name ++ " successfully stored and admin notified" /\
  exists r : patient,
    In r listed /\
    Clinic.name r = name /\
    Clinic.age r = default "" age /\
    Clinic.gender r = default "" gender /\
    Clinic.phone r = default "" phone /\
    Clinic.email r = default "" email /\
    Clinic.insurance r = default "" insurance /\
    Clinic.symptoms r = default "" symptoms /\
    Clinic.medical_history r = default "" medical_history /\
    Clinic.specialty r = specialty /\
    Clinic.urgency r = urgency /\
    Clinic.status r = "pending" /\
    (sequence < Clinic.id r)%Z /\
    (forall old, In old rows -> Clinic.id old <> Clinic.id r) /\
    (forall other, In other listed -> Clinic.id other = Clinic.id r -> other = r).
Proof.
  intros saved listed.
  pose proof save_patient_to_database_spec as Hsave.
  cbv zeta in Hsave. fold saved in Hsave.
  destruct Hsave as (Hmsg & Hdb' & _). rewrite !or_else_empty in Hdb'.
  pose proof (get_all_patients_spec (snd saved)) as Hlist. cbv zeta in Hlist.
  fold listed in Hlist. rewrite Hdb' in Hlist. destruct Hlist as [_ Hlisted].
  destruct (next_id_fresh rows sequence) as [Hseq Hfresh].
  split; [exact Hmsg|].
  eexists. split.
  { rewrite Hlisted. apply (Permutation_in _ (newest_first_perm _)).
    apply in_or_app. right. left. reflexivity. }
  cbn [Clinic.name Clinic.age Clinic.gender Clinic.phone Clinic.email Clinic.insurance
       Clinic.symptoms Clinic.medical_history Clinic.specialty Clinic.urgency
       Clinic.status Clinic.id].
  repeat (split; [reflexivity|]).
  split; [exact Hseq|]. split; [exact Hfresh|].
  intros other Hother Hid. rewrite Hlisted in Hother.
  apply (Permutation_in _ (Permutation_sym (newest_first_perm _))) in Hother.
  apply in_app_or in Hother as [Hold | [<- | []]]; [| reflexivity].
  now apply Hfresh in Hold.
Qed.

(** C7, as the code has it.  After an insert that succeeds the row is in
    the table with status ["pending"], whatever the mail does, and the
    success message is returned.  When mail is configured
    ([EMAIL_ENABLED]) exactly one message is handed to
    [send_email_message]; if its SMTP session raises, nothing is delivered,
    nothing is sent again, and the failure shows only as the newest log
    line.  When mail is not configured no message is handed over at all
    and the log says so. *)
Theorem notification_after_insert :
  let saved :=
    save_patient_to_database cfg name age gender phone email insurance symptoms
      medical_history specialty urgency w in
  let w' := snd saved in
  fst saved = "✅ Patient record for " ++ name ++ " successfully stored and admin notified" /\
  (exists r : patient,
     db w' = Patients (rows ++ [r]) (Clinic.id r) /\
     Clinic.name r = name /\ Clinic.specialty r = specialty /\
     Clinic.urgency r = urgency /\ Clinic.status r = "pending") /\
  (EMAIL_ENABLED cfg = true ->
     exists m : mail,
       requested w' = (requested w ++ [m])%list /\
       mail_subject m = subject_of name specialty urgency /\
       match smtp w m with
       | None => delivered w' = (delivered w ++ [m])%list
       | Some e =>
           delivered w' = delivered w /\
           last_log_says w' ("ADMIN EMAIL: Failed to send email: " ++ e)
       end) /\
  (EMAIL_ENABLED cfg = false ->
     requested w' = requested w /\ delivered w' = delivered w /\
     last_log_says w' "ADMIN EMAIL: Email not configured").
Proof.
  intros saved w'.
  pose proof save_patient_to_database_spec as Hsave.
  cbv zeta in Hsave. fold saved in Hsave. fold w' in Hsave.
  destruct Hsave as (Hmsg & Hdb' & _ & _ & Hmail).
  split; [exact Hmsg|]. split.
  { eexists. split; [exact Hdb'|]. repeat split. }
  split; intros Hen; rewrite Hen in Hmail; [| exact Hmail].
  destruct Hmail as (body & Hreq & Hout). cbv zeta in Hreq, Hout.
  eexists. split; [exact Hreq|]. split; [reflexivity|].
  destruct (smtp w _) as [e|]; [exact Hout | apply Hout].
Qed.

End Intake.

(** The round trip on the sample store: one record in, the same record out. *)
Lemma save_then_list_roundtrip_sample :
  let saved :=
    save_patient_to_database Sample.cfg_mail "Maria" (Some "34") None None None None
      (Some "severe chest pain") None "emergency" "critical" Sample.world_ready in
  fst saved = "✅ Patient record for Maria successfully stored and admin notified" /\
  exists r : patient,
    In r (fst (get_all_patients (snd saved))) /\
    Clinic.name r = "Maria" /\ Clinic.age r = "34" /\ Clinic.gender r = "" /\
    Clinic.phone r = "" /\ Clinic.email r = "" /\ Clinic.insurance r = "" /\
    Clinic.symptoms r = "severe chest pain" /\ Clinic.medical_history r = "" /\
    Clinic.specialty r = "emergency" /\ Clinic.urgency r = "critical" /\
    Clinic.status r = "pending" /\
    (0 < Clinic.id r)%Z /\
    (forall old, In old [] -> Clinic.id old <> Clinic.id r) /\
    (forall other, In other (fst (get_all_patients (snd saved))) ->
                   Clinic.id other = Clinic.id r -> other = r).
Proof.
  apply (save_then_list_roundtrip Sample.cfg_mail "Maria" (Some "34") None None None
           None (Some "severe chest pain") None "emergency" "critical"
           Sample.world_ready [] 0%Z).
  reflexivity.
Defined.

(** On the sample store, whose mail server refuses the session: the
    record stays and the failure is logged. *)
Lemma notification_after_insert_sample :
  let saved :=
    save_patient_to_database Sample.cfg_mail "Maria" (Some "34") None None None None
      (Some "severe chest pain") None "emergency" "critical" Sample.world_ready in
  (exists r : patient,
     db (snd saved) = Patients [r] (Clinic.id r) /\ Clinic.status r = "pending") /\
  length (requested (snd saved)) = 1 /\
  delivered (snd saved) = [] /\
  last_log_says (snd saved) "ADMIN EMAIL: Failed to send email: Connection refused".
Proof.
  intros saved.
  destruct (notification_after_insert Sample.cfg_mail "Maria" (Some "34") None None
              None None (Some "severe chest pain") None "emergency" "critical"
              Sample.world_ready [] 0%Z eq_refl)
    as (_ & (r & Hdb & _ & _ & _ & Hstatus) & Hmail & _).
  destruct (Hmail eq_refl) as (m & Hreq & _ & Hout).
  change (smtp Sample.world_ready m) with (Some "Connection refused") in Hout.
  destruct Hout as [Hdel Hlog].
  split; [exists r; split; [exact Hdb | exact Hstatus]|].
  split; [fold saved in Hreq; now rewrite Hreq|].
  split; [exact Hdel | exact Hlog].
Defined.

(** C7 as stated fails: without mail settings an insert succeeds and no
    message is handed to [send_email_message]. *)
Lemma no_dispatch_when_mail_is_not_configured :
  ~ (forall (cfg : config) (name : string)
            (age gender phone email insurance symptoms medical_history : option string)
            (specialty urgency : string) (w : world) (rows : list patient)
            (sequence : Z),
       db w = Patients rows sequence ->
       let saved :=
         save_patient_to_database cfg name age gender phone email insurance symptoms
           medical_history specialty urgency w in
       exists m : mail, requested (snd saved) = (requested w ++ [m])%list).
Proof.
  intros Hclaim.
  destruct (Hclaim Sample.cfg_no_mail "Maria" (Some "34") None None None None
              (Some "severe chest pain") None "emergency" "critical"
              Sample.world_ready [] 0%Z eq_refl) as [m Hm].
  vm_compute in Hm. discriminate Hm.
Qed.

Example insert_succeeds_without_mail_settings :
  let saved :=
    save_patient_to_database Sample.cfg_no_mail "Maria" (Some "34") None None None None
      (Some "severe chest pain") None "emergency" "critical" Sample.world_ready in
  fst saved = "✅ Patient record for Maria successfully stored and admin notified" /\
  map Clinic.name (fst (get_all_patients (snd saved))) = ["Maria"] /\
  requested (snd saved) = [] /\
  last (system_logs (snd saved)) = Some "[10:00:05] ADMIN EMAIL: Email not configured".
Proof. repeat split. Qed.

(** *** Labels in the notification *)









(** A label bound to [None] is not read as missing: the call raises and
    the world is as before. *)
Example none_label_raises :
  let w := Sample.world_ready in
  send_admin_notification Sample.cfg_mail "Maria" [("urgency", None)] w
  = (inl (AttributeError "'NoneType' object has no attribute 'upper'"), w) /\
  send_admin_notification Sample.cfg_mail "Maria" [("specialty", None); ("ward", None)] w
  = (inl (AttributeError "'NoneType' object has no attribute 'title'"), w) /\
  send_admin_notification Sample.cfg_mail "Maria" [("ward", Some "B"); ("bed", None)] w
  = (inl (TypeError ("create_admin_notification_email() got an unexpected "
                     ++ "keyword argument 'ward'")), w) /\
  fst (send_admin_notification Sample.cfg_no_mail "Maria" [("urgency", None)] w)
  = inr "Email not configured".
Proof. repeat split. Qed.

Example subject_without_prefix :
  subject_of "Noor" "general" "medium" = "New Patient: Noor → General Dept" /\
  subject_of "Noor" "mental_health" "low" = "New Patient: Noor → Mental_Health Dept" /\
  subject_of "Noor" "cardiology" "high"
    = "🟠 HIGH PRIORITY: New Patient: Noor → Cardiology Dept".
Proof. repeat split. Qed.

End ClinicFacts.

(** * Further properties *)

(** ** The two classifiers together *)
Section TriageTogether.
Import PyStr Spec Triage Clinic.

Lemma mentions_incl (small large : list string) (text : string) :
  incl small large -> mentions small text -> mentions large text.
Proof. intros Hincl (k & Hin & Hsub). exists k. split; [now apply Hincl | exact Hsub]. Qed.

Lemma mentions_app (l1 l2 : list string) (text : string) :
  mentions (l1 ++ l2)%list text <-> mentions l1 text \/ mentions l2 text.
Proof.
  unfold mentions. split.
  - intros (k & Hin & Hsub). apply in_app_or in Hin as [Hin | Hin]; [left | right];
      now exists k.
  - intros [(k & Hin & Hsub) | (k & Hin & Hsub)]; exists k;
      (split; [apply in_or_app; auto | exact Hsub]).
Qed.

Lemma emergency_keywords_are_critical :
  critical_keywords = (emergency_keywords ++ ["broken bone"; "head injury"])%list.
Proof. reflexivity. Qed.

(** The symptoms as both classifiers read them. *)
Lemma determine_specialty_emergency (U : str_methods) (HU : on_ascii U)
    (symptoms age : option string) :
  determine_specialty U symptoms age = inr "emergency"
  <-> mentions emergency_keywords (str_lower U (default "" symptoms)).
Proof.
  destruct symptoms as [[|c s]|].
  - change (determine_specialty U (Some "") age) with (@inr error string "general").
    simpl default. rewrite (lower_on_ascii U HU "" eq_refl).
    split; [discriminate|]. intros H. now apply empty_text_unmatched in H.
  - pose proof (determine_specialty_ladder U c s age) as H. cbv zeta in H. apply H.
  - change (determine_specialty U None age) with (@inr error string "general").
    simpl default. rewrite (lower_on_ascii U HU "" eq_refl).
    split; [discriminate|]. intros H. now apply empty_text_unmatched in H.
Qed.

Lemma assess_urgency_critical (U : str_methods) (HU : on_ascii U)
    (symptoms age medical_history : option string) :
  assess_urgency U symptoms age medical_history = "critical"
  <-> mentions critical_keywords (str_lower U (default "" symptoms)).
Proof.
  rewrite (assess_urgency_unfold U HU). cbv zeta.
  destruct (any_keyword_in critical_keywords _) eqn:Hc.
  - apply any_keyword_in_spec in Hc. tauto.
  - apply any_keyword_in_not in Hc.
    destruct (any_keyword_in high_keywords _); split; (discriminate || tauto).
Qed.

(** X1. The two classifiers on the same symptoms.  [determine_specialty]
    answers [emergency] exactly when an emergency keyword occurs in the
    lowered symptoms, and [assess_urgency] answers [critical] exactly when
    an emergency keyword, "broken bone" or "head injury" occurs.  So
    whoever is routed to [emergency] is assessed [critical], and a
    [critical] case that is not routed to [emergency] has "broken bone" or
    "head injury" in its text and no emergency keyword. *)
Theorem emergency_is_critical (U : str_methods) (HU : on_ascii U)
    (symptoms age medical_history : option string) :
  let text := str_lower U (default "" symptoms) in
  let label := determine_specialty U symptoms age in
  let tier := assess_urgency U symptoms age medical_history in
  (label = inr "emergency" <-> mentions emergency_keywords text) /\
  (tier = "critical" <->
     mentions emergency_keywords text \/ mentions ["broken bone"; "head injury"] text) /\
  (label = inr "emergency" -> tier = "critical") /\
  (tier = "critical" -> label <> inr "emergency" ->
     mentions ["broken bone"; "head injury"] text /\ ~ mentions emergency_keywords text).
Proof.
  intros text label tier. subst label tier.
  rewrite (determine_specialty_emergency U HU), (assess_urgency_critical U HU).
  fold text. rewrite emergency_keywords_are_critical, mentions_app. tauto.
Qed.

(** A fall with bleeding is an emergency and critical; a broken bone alone
    is critical and goes to orthopedics. *)
Lemma emergency_is_critical_sample :
  let U := Sample.ascii_methods in
  assess_urgency U (Some "Heavy BLEEDING after a fall") (Some "9") None = "critical" /\
  (assess_urgency U (Some "a broken bone") None None = "critical" /\
   determine_specialty U (Some "a broken bone") None = inr "orthopedics").
Proof.
  intros U.
  destruct (emergency_is_critical U ascii_methods_on_ascii
              (Some "Heavy BLEEDING after a fall") (Some "9") None)
    as (_ & _ & Hcritical & _).
  split; [apply Hcritical; vm_compute; reflexivity|].
  split; vm_compute; reflexivity.
Defined.

(** X2. The labels the classifiers give are keys of the tables the
    notification reads: a label [determine_specialty] returns is one of
    the eight department labels, each a key of [dept_info];
    [assess_urgency] answers [critical], [high] or [medium], each a key of
    [URGENCY_LEVELS] and of [urgency_colors].  So no fall-back of the
    notification is reached with a label that a classifier produced. *)
Theorem classifier_labels_are_known (U : str_methods)
    (symptoms age medical_history : option string) :
  let tier := assess_urgency U symptoms age medical_history in
  (forall label : string,
     determine_specialty U symptoms age = inr label ->
     In label ["emergency"; "cardiology"; "dermatology"; "orthopedics"; "mental_health";
               "pediatrics"; "gynecology"; "general"] /\
     is_Some (dept_info !! label) /\
     dept_info !! label = Some (dept_of label)) /\
  In tier ["critical"; "high"; "medium"] /\
  URGENCY_LEVELS !! tier = Some (urgency_display_of tier) /\
  is_Some (urgency_colors !! tier).
Proof.
  intros tier. subst tier. split.
  - intros label. unfold determine_specialty.
    repeat match goal with
           | |- context [if ?b then _ else _] => destruct b
           | |- context [match age_below_18 U age with _ => _ end] =>
               destruct (age_below_18 U age) as [[]|[|]]
           end;
      intros H; try discriminate H; injection H as <-;
      (split; [simpl; tauto|]); (split; [vm_compute; eauto | vm_compute; reflexivity]).
  - unfold assess_urgency.
    repeat match goal with
           | |- context [if ?b then _ else _] => destruct b
           end;
      (split; [simpl; tauto|]);
      (split; [vm_compute; reflexivity | vm_compute; eauto]).
Qed.

(** X3. The end of the ladder of [determine_specialty]: [gynecology]
    exactly when the symptoms are not empty, none of the five earlier lists
    matches, the age is not read as a number below 18 (and not refused by
    [int]), and a gynecology keyword occurs; [general] exactly when the
    symptoms are empty or missing, or nothing at all matches and the age
    is not read as a number below 18.  So a minor with a gynecology keyword
    is sent to [pediatrics]. *)
Theorem gynecology_and_general (U : str_methods) (HU : on_ascii U)
    (symptoms age : option string) :
  let text := str_lower U (default "" symptoms) in
  let label := determine_specialty U symptoms age in
  let minor := exists years, age_reads U age years /\ (years < 18)%N in
  (label = inr "gynecology" <->
     unmatched_five text /\ ~ minor /\ ~ age_refused U age /\
     mentions gynecology_keywords text) /\
  (label = inr "general" <->
     truthy symptoms = false \/
     (unmatched_five text /\ ~ minor /\ ~ age_refused U age /\
      ~ mentions gynecology_keywords text)) /\
  (minor -> label <> inr "gynecology" /\
            (label = inr "general" -> truthy symptoms = false)).
Proof.
  intros text label minor. subst text label.
  assert (Hgyn : ~ mentions gynecology_keywords "")
    by now apply empty_text_mentions_nothing.
  pose proof empty_text_unmatched as Hempty.
  destruct symptoms as [[|c s]|]; simpl default.
  - change (determine_specialty U (Some "") age) with (@inr error string "general").
    rewrite (lower_on_ascii U HU "" eq_refl). change (lower "") with "".
    change (truthy (Some "")) with false.
    repeat split; try discriminate; tauto.
  - pose proof (determine_specialty_ladder U c s age) as H. cbv zeta in H.
    fold minor in H. destruct H as (_ & _ & _ & _ & _ & _ & _ & Hg & Hn).
    change (truthy (Some (String c s))) with true. rewrite Hg, Hn.
    assert (Htrue : true = false <-> False) by (split; [discriminate | tauto]).
    rewrite Htrue. tauto.
  - change (determine_specialty U None age) with (@inr error string "general").
    rewrite (lower_on_ascii U HU "" eq_refl). change (lower "") with "".
    change (truthy None) with false.
    repeat split; try discriminate; tauto.
Qed.

(** A pregnancy test at 16 and at 30. *)
Lemma gynecology_and_general_sample :
  let U := Sample.ascii_methods in
  determine_specialty U (Some "pregnancy test") (Some "30") = inr "gynecology" /\
  determine_specialty U (Some "pregnancy test") (Some "16") <> inr "gynecology".
Proof.
  intros U.
  destruct (gynecology_and_general U ascii_methods_on_ascii (Some "pregnancy test")
              (Some "16")) as (_ & _ & Hminor).
  split; [vm_compute; reflexivity|].
  apply Hminor. exists 16%N. split; [| reflexivity].
  exists "16". repeat split. discriminate.
Defined.

Example minor_with_gynecology_keyword :
  let U := Sample.ascii_methods in
  determine_specialty U (Some "pregnancy test") (Some "16") = inr "pediatrics" /\
  determine_specialty U (Some "pregnancy test") (Some "16 years") = inr "gynecology".
Proof. split; vm_compute; reflexivity. Qed.

End TriageTogether.

(** ** The store over several operations *)
Section StoreMore.
Import PyStr Spec Clinic Tools Props.

(** *** Every step only adds to the log *)

Lemma log_extended_refl (w : world) : log_extended w w.
Proof. split; [exists []; now rewrite app_nil_r | lia]. Qed.

Lemma log_extended_trans (w1 w2 w3 : world) :
  log_extended w1 w2 -> log_extended w2 w3 -> log_extended w1 w3.
Proof.
  intros [[a1 H1] L1] [[a2 H2] L2]. split; [| lia].
  exists (a1 ++ a2)%list. now rewrite H2, H1, app_assoc.
Qed.

Lemma log_extended_same (w w' : world) :
  system_logs w' = system_logs w -> ticks w' = ticks w -> log_extended w w'.
Proof. intros Hl Ht. split; [exists []; now rewrite app_nil_r | lia]. Qed.

Lemma log_extended_log (message : string) (w : world) :
  log_extended w (log_system_message message w).
Proof. split; [eexists; reflexivity | simpl; lia]. Qed.

Lemma log_extended_log_after (message : string) (w w' : world) :
  log_extended w w' -> log_extended w (log_system_message message w').
Proof. intros H. eapply log_extended_trans; [exact H | apply log_extended_log]. Qed.

Lemma log_extended_create_email
    (name : string) (age gender phone email insurance symptoms medical_history : option string)
    (specialty urgency : string) (w : world) :
  log_extended w
    (snd (create_admin_notification_email name age gender phone email insurance
            symptoms medical_history specialty urgency w)).
Proof. split; [exists []; simpl; now rewrite app_nil_r | simpl; lia]. Qed.

Lemma log_extended_send_email_message (cfg : config) (to_email subject body : string)
    (cc : option string) (log_prefix : string) (w : world) :
  log_extended w (snd (send_email_message cfg to_email subject body cc log_prefix w)).
Proof.
  unfold send_email_message.
  match goal with
  | |- context [log_system_message ?m (with_requested ?l w)] =>
      assert (H0 : log_extended w (log_system_message m (with_requested l w)))
        by (apply log_extended_log_after, log_extended_same; reflexivity);
      set (w1 := log_system_message m (with_requested l w)) in *
  end.
  destruct (negb (EMAIL_ENABLED cfg)); cbn [snd].
  - now apply log_extended_log_after.
  - destruct (smtp w1 _); cbn [snd]; apply log_extended_log_after;
      [exact H0 |].
    eapply log_extended_trans; [exact H0 | apply log_extended_same; reflexivity].
Qed.

Lemma log_extended_send_admin_notification (cfg : config) (name : string)
    (patient_info : kwargs) (w : world) :
  log_extended w (snd (send_admin_notification cfg name patient_info w)).
Proof.
  unfold send_admin_notification.
  destruct (existsb (String.eqb "name") (map fst patient_info));
    [apply log_extended_refl|].
  destruct (negb (EMAIL_ENABLED cfg) || negb (truthy (EMAIL_USER cfg)));
    [apply log_extended_refl|].
  destruct (get patient_info "specialty" (Some "general")) as [specialty|];
    [| apply log_extended_refl].
  destruct (unexpected_keyword patient_info); [apply log_extended_refl|].
  destruct (get patient_info "urgency" (Some "medium")) as [urgency|];
    [| apply log_extended_refl].
  match goal with
  | |- context [create_admin_notification_email ?n ?a ?g ?p ?e ?i ?s ?m ?sp ?u w] =>
      pose proof (log_extended_create_email n a g p e i s m sp u w) as Hbody;
      destruct (create_admin_notification_email n a g p e i s m sp u w) as [body w1]
  end.
  cbn [snd] in Hbody.
  match goal with
  | |- context [send_email_message cfg ?to ?subj ?b ?cc ?pre ?w2] =>
      pose proof (log_extended_send_email_message cfg to subj b cc pre w2) as Hsend;
      destruct (send_email_message cfg to subj b cc pre w2) as [result w3]
  end.
  cbn [snd] in *.
  eapply log_extended_trans; [| exact Hsend].
  now apply log_extended_log_after.
Qed.

Lemma log_extended_save (cfg : config)
    (name : string) (age gender phone email insurance symptoms medical_history : option string)
    (specialty urgency : string) (w : world) :
  log_extended w
    (snd (save_patient_to_database cfg name age gender phone email insurance symptoms
            medical_history specialty urgency w)).
Proof.
  unfold save_patient_to_database. cbn [now].
  match goal with
  | |- context [log_system_message ?m (with_ticks ?n w)] =>
      assert (H0 : log_extended w (log_system_message m (with_ticks n w)))
        by (eapply log_extended_trans; [| apply log_extended_log];
            split; [exists []; simpl; now rewrite app_nil_r | simpl; lia]);
      set (w1 := log_system_message m (with_ticks n w)) in *
  end.
  destruct (insert_patient _ _ _ _ _ _ _ _ _ _ _ (db w1)) as [e | d].
  - cbn [snd]. now apply log_extended_log_after.
  - match goal with
    | |- context [send_admin_notification cfg name ?info ?w2] =>
        pose proof (log_extended_send_admin_notification cfg name info w2) as Hsend;
        assert (H2 : log_extended w w2)
          by (do 2 apply log_extended_log_after;
              eapply log_extended_trans; [exact H0 | apply log_extended_same; reflexivity]);
        destruct (send_admin_notification cfg name info w2) as [[e | email_result] w3]
    end;
      cbn [snd] in *; apply log_extended_log_after;
      (eapply log_extended_trans; [exact H2 | exact Hsend]).
Qed.

(** X4. No operation of the module rewrites or shortens the log, and none
    turns the clock back: after [init_database], [get_all_patients],
    [send_email_message], [send_admin_notification],
    [save_patient_to_database] and [route_patient_to_department] the log
    is the old log with lines added at its end. *)
Theorem operations_only_extend_the_log (cfg : config) (w : world)
    (name specialty urgency to_email subject body log_prefix : string)
    (age gender phone email insurance symptoms medical_history cc : option string)
    (patient_info : kwargs) :
  log_extended w (snd (init_database cfg w)) /\
  log_extended w (snd (get_all_patients w)) /\
  log_extended w (snd (send_email_message cfg to_email subject body cc log_prefix w)) /\
  log_extended w (snd (send_admin_notification cfg name patient_info w)) /\
  log_extended w
    (snd (save_patient_to_database cfg name age gender phone email insurance symptoms
            medical_history specialty urgency w)) /\
  log_extended w
    (snd (route_patient_to_department specialty name age gender phone email insurance
            symptoms medical_history urgency w)).
Proof.
  split; [| split; [| split; [| split; [| split]]]].
  - unfold init_database. destruct (create_table (db w)); cbn [snd].
    + apply log_extended_log.
    + apply log_extended_log_after, log_extended_same; reflexivity.
  - unfold get_all_patients.
    destruct (read_patients _); cbn [snd]; apply log_extended_log_after, log_extended_log.
  - apply log_extended_send_email_message.
  - apply log_extended_send_admin_notification.
  - apply log_extended_save.
  - unfold route_patient_to_department. cbn [snd].
    do 2 apply log_extended_log_after. apply log_extended_log.
Qed.

(** *** A failed insert *)

(** X5. When the insert raises (the file cannot be opened, is not a
    database, holds no table, or cannot be written),
    [save_patient_to_database] returns
    ["Failed to store patient record: <reason>"], logs it as a
    [DATABASE ERROR], leaves the store as it was, and asks for no
    notification. *)
Theorem save_reports_a_failed_insert (cfg : config)
    (name : string) (age gender phone email insurance symptoms medical_history : option string)
    (specialty urgency : string) (w : world) (reason : string) :
  store_error (db w) = Some reason ->
  let res :=
    save_patient_to_database cfg name age gender phone email insurance symptoms
      medical_history specialty urgency w in
  fst res = "Failed to store patient record: " ++ reason /\
  db (snd res) = db w /\
  requested (snd res) = requested w /\ delivered (snd res) = delivered w /\
  last_log_says (snd res)
    ("DATABASE ERROR: ❌ Failed to store patient record: " ++ reason).
Proof.
  intros Herr res. subst res. unfold save_patient_to_database.
  cbn [now fst snd log_system_message with_logs with_ticks db].
  destruct (db w) as [r| |rows sequence|[rows|]|r] eqn:Hdb; simpl in Herr;
    [ injection Herr as -> | injection Herr as <- | discriminate Herr
    | injection Herr as <- | injection Herr as <- | injection Herr as -> ];
    cbn [insert_patient fst snd];
    (split; [reflexivity|]); (split; [exact Hdb|]);
    (split; [reflexivity|]); (split; [reflexivity|]);
    apply log_system_message_last.
Qed.

(** A record sent to a database file on which [init_database] never ran. *)
Lemma save_reports_a_failed_insert_sample :
  let res :=
    save_patient_to_database Sample.cfg_mail "Maria" (Some "34") None None None None
      (Some "severe chest pain") None "emergency" "critical" Sample.world_fresh in
  fst res = "Failed to store patient record: no such table: patients" /\
  db (snd res) = NoTable /\ requested (snd res) = [] /\ delivered (snd res) = [] /\
  last_log_says (snd res)
    "DATABASE ERROR: ❌ Failed to store patient record: no such table: patients".
Proof.
  apply (save_reports_a_failed_insert Sample.cfg_mail "Maria" (Some "34") None None
           None None (Some "severe chest pain") None "emergency" "critical"
           Sample.world_fresh "no such table: patients").
  reflexivity.
Defined.

(** *** One more row, the others untouched *)

(** X6. A successful [save_patient_to_database] changes the listing of
    [get_all_patients] by exactly one row: the new listing is the old one
    with the new record put in, and the new record was not listed before. *)
Theorem save_adds_one_row_to_the_listing (cfg : config)
    (name : string) (age gender phone email insurance symptoms medical_history : option string)
    (specialty urgency : string) (w : world) (rows : list patient) (sequence : Z) :
  db w = Patients rows sequence ->
  let saved :=
    save_patient_to_database cfg name age gender phone email insurance symptoms
      medical_history specialty urgency w in
  let before := fst (get_all_patients w) in
  let after := fst (get_all_patients (snd saved)) in
  exists r : patient,
    Permutation after (r :: before) /\
    ~ In r before /\
    length after = S (length rows) /\
    Clinic.name r = name /\ Clinic.timestamp r = clock w (ticks w).
Proof.
  intros Hdb saved before after.
  pose proof (save_patient_to_database_spec cfg name age gender phone email insurance
                symptoms medical_history specialty urgency w rows sequence Hdb) as Hsave.
  cbv zeta in Hsave. fold saved in Hsave. destruct Hsave as (_ & Hdb' & _).
  pose proof (get_all_patients_spec w) as Hb. cbv zeta in Hb. rewrite Hdb in Hb.
  cbn [stored] in Hb. destruct Hb as [_ Hb]. fold before in Hb.
  pose proof (get_all_patients_spec (snd saved)) as Ha. cbv zeta in Ha.
  rewrite Hdb' in Ha. cbn [stored] in Ha. destruct Ha as [_ Ha]. fold after in Ha.
  match type of Hdb' with
  | _ = Patients (_ ++ [?row])%list _ => exists row
  end.
  rewrite Ha, Hb. split; [| split; [| split; [| split; reflexivity]]].
  - rewrite <- !newest_first_perm. symmetry. apply Permutation_cons_append.
  - intros Hin.
    apply (Permutation_in _ (Permutation_sym (newest_first_perm _))) in Hin.
    destruct (next_id_fresh rows sequence) as [_ Hfresh].
    now apply Hfresh in Hin.
  - rewrite <- (Permutation_length (newest_first_perm _)), length_app. simpl. lia.
Qed.

Lemma save_adds_one_row_to_the_listing_sample :
  let saved :=
    save_patient_to_database Sample.cfg_mail "Maria" (Some "34") None None None None
      (Some "severe chest pain") None "emergency" "critical" Sample.world_ready in
  exists r : patient,
    Permutation (fst (get_all_patients (snd saved)))
      (r :: fst (get_all_patients Sample.world_ready)) /\
    ~ In r (fst (get_all_patients Sample.world_ready)) /\
    length (fst (get_all_patients (snd saved))) = 1 /\
    Clinic.name r = "Maria" /\ Clinic.timestamp r = "2024-05-01 10:00:01".
Proof.
  apply (save_adds_one_row_to_the_listing Sample.cfg_mail "Maria" (Some "34") None None
           None None (Some "severe chest pain") None "emergency" "critical"
           Sample.world_ready [] 0%Z).
  reflexivity.
Defined.

(** *** Record numbers *)

Lemma largest_id_at_most (rows : list patient) (bound : Z) :
  (0 <= bound)%Z -> (forall r, In r rows -> (id r <= bound)%Z) ->
  (largest_id rows <= bound)%Z.
Proof.
  intros Hb. induction rows as [|r rows IH]; simpl; intros H; [exact Hb|].
  assert (id r <= bound)%Z by (apply H; now left).
  assert (largest_id rows <= bound)%Z by (apply IH; intros r' Hr'; apply H; now right).
  lia.
Qed.

Lemma numbered_ids_at_most (rows : list patient) :
  map id rows = map Z.of_nat (seq 1 (length rows)) ->
  forall r, In r rows -> (id r <= Z.of_nat (length rows))%Z.
Proof.
  intros Hids r Hin. apply (in_map id) in Hin. rewrite Hids in Hin.
  apply in_map_iff in Hin as (n & <- & Hn). apply in_seq in Hn. lia.
Qed.

Lemma grown_numbers (rows : list patient) (sequence : Z) :
  grown rows sequence ->
  sequence = Z.of_nat (length rows) /\
  map id rows = map Z.of_nat (seq 1 (length rows)) /\
  Forall (fun r => status r = "pending") rows.
Proof.
  induction 1 as [|rows rows' sequence sequence' ts nm ag ge ph em ins sy mh sp ur
                   Hgrown (Hseq & Hids & Hpending) Hinsert].
  - repeat split. constructor.
  - cbn [insert_patient] in Hinsert. injection Hinsert as <- <-.
    assert (Hnext : next_id rows sequence = Z.of_nat (S (length rows))).
    { unfold next_id.
      pose proof (largest_id_at_most rows (Z.of_nat (length rows)) ltac:(lia)
                    (numbered_ids_at_most rows Hids)).
      assert (0 <= largest_id rows)%Z
        by (clear; induction rows; simpl; lia).
      lia. }
    rewrite length_app, Nat.add_comm. cbn [length Nat.add].
    split; [exact Hnext|]. split.
    + rewrite map_app, seq_S, map_app, Hids. cbn [map id]. now rewrite Hnext.
    + apply Forall_app. split; [exact Hpending | now repeat constructor].
Qed.

(** X7. In a store built by [init_database] and successful inserts, the
    records are numbered 1, 2, 3, ... in the order they came, the counter
    is the number of records, and every record is pending.  One more
    [save_patient_to_database] gives its record the next number and keeps
    the store of that kind. *)
Theorem records_are_numbered_in_order (cfg : config)
    (name : string) (age gender phone email insurance symptoms medical_history : option string)
    (specialty urgency : string) (w : world) (rows : list patient) (sequence : Z) :
  grown rows sequence ->
  db w = Patients rows sequence ->
  let saved :=
    save_patient_to_database cfg name age gender phone email insurance symptoms
      medical_history specialty urgency w in
  (sequence = Z.of_nat (length rows) /\
   map id rows = map Z.of_nat (seq 1 (length rows)) /\
   Forall (fun r => status r = "pending") rows) /\
  exists r : patient,
    db (snd saved) = Patients (rows ++ [r]) (id r) /\
    id r = Z.of_nat (S (length rows)) /\
    grown (rows ++ [r]) (id r).
Proof.
  intros Hgrown Hdb saved. split; [now apply grown_numbers|].
  pose proof (save_patient_to_database_spec cfg name age gender phone email insurance
                symptoms medical_history specialty urgency w rows sequence Hdb) as Hsave.
  cbv zeta in Hsave. fold saved in Hsave. destruct Hsave as (_ & Hdb' & _).
  match type of Hdb' with
  | _ = Patients (_ ++ [?row])%list _ => exists row
  end.
  split; [exact Hdb'|].
  assert (Hnew : grown (rows ++ [ {| id := next_id rows sequence;
                                      timestamp := clock w (ticks w); name := name;
                                      age := or_else age ""; gender := or_else gender "";
                                      phone := or_else phone "";
                                      email := or_else email "";
                                      insurance := or_else insurance "";
                                      symptoms := or_else symptoms "";
                                      medical_history := or_else medical_history "";
                                      specialty := specialty; urgency := urgency;
                                      status := "pending" |} ])
                       (next_id rows sequence)).
  { eapply grown_insert; [exact Hgrown | reflexivity]. }
  split; [| exact Hnew].
  apply grown_numbers in Hnew as (Hseq & _). cbn [id]. rewrite Hseq, length_app.
  cbn [length]. f_equal. lia.
Qed.

Lemma records_are_numbered_in_order_sample :
  let saved :=
    save_patient_to_database Sample.cfg_mail "Maria" (Some "34") None None None None
      (Some "severe chest pain") None "emergency" "critical" Sample.world_ready in
  exists r : patient,
    db (snd saved) = Patients [r] (id r) /\ id r = 1%Z /\ grown [r] (id r).
Proof.
  intros saved.
  destruct (records_are_numbered_in_order Sample.cfg_mail "Maria" (Some "34") None None
              None None (Some "severe chest pain") None "emergency" "critical"
              Sample.world_ready [] 0%Z grown_empty eq_refl) as [_ Hnext].
  exact Hnext.
Defined.

(** *** The order of the listing *)

Lemma ltb_not_leb (a b : string) : String.ltb a b = true -> String.leb b a = false.
Proof.
  unfold String.ltb, String.leb. rewrite (String.compare_antisym b a).
  destruct (String.compare a b); simpl; congruence.
Qed.

Lemma insert_newest_first_oldest (r : patient) (l : list patient) :
  Forall (fun r' => String.ltb (timestamp r) (timestamp r') = true) l ->
  insert_newest_first r l = (l ++ [r])%list.
Proof.
  induction 1 as [|r' l Hr' _ IH]; simpl; [reflexivity|].
  now rewrite (ltb_not_leb _ _ Hr'), IH.
Qed.

Lemma newest_first_of_increasing (rows : list patient) :
  strictly_later rows -> newest_first rows = rev rows.
Proof.
  unfold strictly_later. induction 1 as [|r rows _ IH Hall]; simpl; [reflexivity|].
  rewrite IH. apply insert_newest_first_oldest.
  apply List.Forall_forall. intros r' Hr'. apply in_rev in Hr'.
  rewrite List.Forall_forall in Hall. now apply Hall.
Qed.

(** X8. When the stored time stamps grow strictly in the order of
    insertion (no two intakes within the same second, the clock never set
    back), [get_all_patients] returns the records in exactly the reverse
    order of insertion. *)
Theorem listing_is_reverse_chronological (w : world) (rows : list patient) (sequence : Z) :
  db w = Patients rows sequence ->
  strictly_later rows ->
  fst (get_all_patients w) = rev rows.
Proof.
  intros Hdb Hlater.
  pose proof (get_all_patients_spec w) as Hspec. cbv zeta in Hspec.
  rewrite Hdb in Hspec. cbn [stored] in Hspec. destruct Hspec as [_ ->].
  now apply newest_first_of_increasing.
Qed.

Lemma listing_is_reverse_chronological_sample :
  map Clinic.name (fst (get_all_patients Cases.world_two)) = ["Noor"; "Maria"].
Proof.
  rewrite (listing_is_reverse_chronological Cases.world_two Cases.two_rows 2%Z).
  - reflexivity.
  - reflexivity.
  - unfold strictly_later, Cases.two_rows. repeat constructor.
Defined.

(** *** The side bar *)

Lemma strongly_sorted_split {A : Type} (R : A -> A -> Prop) (l1 l2 : list A) :
  StronglySorted R (l1 ++ l2)%list ->
  StronglySorted R l1 /\ StronglySorted R l2 /\
  Forall (fun a => Forall (R a) l2) l1.
Proof.
  induction l1 as [|a l1 IH]; simpl; intros H.
  - repeat split; [constructor | exact H | constructor].
  - apply StronglySorted_inv in H as [H Ha]. destruct (IH H) as (H1 & H2 & H12).
    apply Forall_app in Ha as [Ha1 Ha2].
    repeat split; [now constructor | exact H2 | now constructor].
Qed.

(** X9. "View Patient Records" shows nothing when the table is empty,
    the file cannot be read or it holds no table; otherwise (the file
    may be read-only) it shows the ten newest records, all of them when
    there are fewer, newest first: what it shows and what it leaves out
    make up the table, and no record left out is newer than a record
    shown. *)
Theorem side_bar_shows_the_ten_newest (w : world) :
  match db w, fst (view_patient_records w) with
  | Patients rows _, Some shown | ReadOnly (Some rows), Some shown =>
      length shown = Nat.min 10 (length rows) /\ shown <> [] /\
      StronglySorted not_older shown /\
      exists hidden,
        Permutation rows (shown ++ hidden) /\
        Forall (fun r => Forall (not_older r) hidden) shown
  | Patients rows _, None | ReadOnly (Some rows), None => rows = []
  | _, Some _ => False
  | _, None => True
  end.
Proof.
  unfold view_patient_records.
  pose proof (get_all_patients_spec w) as Hspec. cbv zeta in Hspec.
  destruct (get_all_patients w) as [df w']. cbn [fst snd] in Hspec.
  destruct Hspec as [_ Hspec].
  assert (Hmain : forall rows, df = newest_first rows ->
            match (if negb (Nat.eqb (length df) 0) then Some (firstn 10 df) else None) with
            | Some shown =>
                length shown = Nat.min 10 (length rows) /\ shown <> [] /\
                StronglySorted not_older shown /\
                exists hidden,
                  Permutation rows (shown ++ hidden) /\
                  Forall (fun r => Forall (not_older r) hidden) shown
            | None => rows = []
            end).
  { intros rows ->. pose proof (newest_first_perm rows) as Hperm.
    pose proof (newest_first_sorted rows) as Hsorted.
    destruct (newest_first rows) as [|r df]; cbn [length Nat.eqb negb].
    - now apply Permutation_sym, Permutation_nil in Hperm.
    - set (l := r :: df) in *.
      split; [| split; [discriminate|]].
      { rewrite List.length_firstn, (Permutation_length Hperm). reflexivity. }
      rewrite <- (firstn_skipn 10 l) in Hsorted, Hperm.
      apply strongly_sorted_split in Hsorted as (Hshown & _ & Hcut).
      split; [exact Hshown|]. exists (skipn 10 l). split; [exact Hperm | exact Hcut]. }
  destruct (db w) as [reason| |rows sequence|[rows|]|reason]; cbn [stored] in Hspec.
  - destruct Hspec as [-> _]. exact I.
  - destruct Hspec as [-> _]. exact I.
  - specialize (Hmain rows Hspec).
    destruct (negb (Nat.eqb (length df) 0)); cbn [fst]; exact Hmain.
  - specialize (Hmain rows Hspec).
    destruct (negb (Nat.eqb (length df) 0)); cbn [fst]; exact Hmain.
  - destruct Hspec as [-> _]. exact I.
  - destruct Hspec as [-> _]. exact I.
Qed.

(** A table of two records in a file that can only be read. *)
Example side_bar_reads_a_read_only_file :
  let w := {| db := ReadOnly (Some Cases.two_rows); system_logs := []; ticks := 0;
              clock := Sample.sample_clock; smtp := fun _ => None;
              requested := []; delivered := [] |} in
  option_map (map Clinic.name) (fst (view_patient_records w)) = Some ["Noor"; "Maria"] /\
  fst (save_patient_to_database Sample.cfg_mail "Ann" None None None None None None None
         "general" "medium" w)
  = "Failed to store patient record: attempt to write a readonly database".
Proof. split; vm_compute; reflexivity. Qed.

End StoreMore.

(** ** The mail and the tools *)
Section MailMore.
Import PyStr Spec Clinic Tools Props.

Lemma enabled_user (cfg : config) :
  EMAIL_ENABLED cfg = true -> EMAIL_USER cfg = Some (default "" (EMAIL_USER cfg)).
Proof. unfold EMAIL_ENABLED. destruct (EMAIL_USER cfg); simpl; [reflexivity | discriminate]. Qed.

(** X10. Whatever the record says, [save_patient_to_database] hands at
    most one message to [send_email_message], and that message goes to the
    configured [EMAIL_USER] alone: no copy, so the only address
    [sendmail] receives is the desk's own, never one taken from the
    patient's data. *)
Theorem notifications_go_to_the_desk_only (cfg : config)
    (name : string) (age gender phone email insurance symptoms medical_history : option string)
    (specialty urgency : string) (w : world) :
  let res :=
    save_patient_to_database cfg name age gender phone email insurance symptoms
      medical_history specialty urgency w in
  exists new : list mail,
    requested (snd res) = (requested w ++ new)%list /\
    length new <= 1 /\
    Forall (fun m => EMAIL_USER cfg = Some (mail_to m) /\ mail_cc m = None /\
                     recipients m = [mail_to m]) new.
Proof.
  intros res.
  assert (Hfailed : forall reason, store_error (db w) = Some reason ->
            requested (snd res) = (requested w ++ [])%list).
  { intros reason Herr. subst res. unfold save_patient_to_database.
    cbn [now fst snd log_system_message with_logs with_ticks db].
    destruct (db w) as [r| |rows sequence|[rows|]|r]; try discriminate Herr;
      cbn [insert_patient snd requested log_system_message now with_logs with_ticks];
      now rewrite app_nil_r. }
  destruct (db w) as [reason| |rows sequence|[rows|]|reason] eqn:Hdb;
    try (exists []; split; [eapply Hfailed; reflexivity|];
         split; [simpl; lia | constructor]).
  - pose proof (save_patient_to_database_spec cfg name age gender phone email insurance
                  symptoms medical_history specialty urgency w rows sequence Hdb) as Hsave.
    cbv zeta in Hsave. fold res in Hsave. destruct Hsave as (_ & _ & _ & _ & Hmail).
    destruct (EMAIL_ENABLED cfg) eqn:Hen.
    + destruct Hmail as (body & Hreq & _). eexists [_]. split; [exact Hreq|].
      split; [simpl; lia|]. repeat constructor. cbn [mail_to].
      now apply enabled_user.
    + destruct Hmail as (Hreq & _). exists []. rewrite app_nil_r.
      repeat split; [exact Hreq | simpl; lia | constructor].
Qed.

Lemma sent_successfully (address : string) :
  contains "successfully" ("Email sent successfully to " ++ address) = true.
Proof. apply contains_spec. exists "Email sent ", (" to " ++ address). reflexivity. Qed.

Lemma failed_to_send_successfully (e : string) :
  contains "successfully" ("Failed to send email: " ++ e) = contains "successfully" e.
Proof. reflexivity. Qed.

(** X11. "Send Test Admin Alert" is offered only when mail is enabled.
    One click hands exactly one message to [send_email_message]: to the
    desk's own address, without a copy, under the subject of a [high]
    cardiology case, and the store is not touched; no exception leaves the
    call.  The side bar reports success when the server takes the message;
    when the server refuses it the side bar reports a failure, unless the
    text of the error has the word "successfully" in it. *)
Theorem test_alert_reports_delivery (cfg : config) (w : world) :
  let res := send_test_admin_alert cfg w in
  if EMAIL_ENABLED cfg then
    db (snd res) = db w /\
    exists m : mail,
      requested (snd res) = (requested w ++ [m])%list /\
      EMAIL_USER cfg = Some (mail_to m) /\ mail_cc m = None /\
      mail_subject m = "🟠 HIGH PRIORITY: New Patient: Test Patient → Cardiology Dept" /\
      match smtp w m with
      | None =>
          fst res = inr (Some true) /\ delivered (snd res) = (delivered w ++ [m])%list
      | Some e =>
          fst res = inr (Some (contains "successfully" e)) /\
          delivered (snd res) = delivered w
      end
  else res = (inr None, w).
Proof.
  intros res. subst res. unfold send_test_admin_alert.
  destruct (EMAIL_ENABLED cfg) eqn:Hen; cbn [negb]; [| reflexivity].
  match goal with
  | |- context [send_admin_notification cfg ?n ?info w] =>
      pose proof (send_admin_notification_spec cfg n info w "cardiology" "high"
                    eq_refl eq_refl eq_refl eq_refl) as Hsend;
      cbv zeta in Hsend;
      destruct (send_admin_notification cfg n info w) as [result w']
  end.
  cbn [fst snd] in Hsend. destruct Hsend as (Hdb & _ & _ & Hout).
  rewrite Hen in Hout. destruct Hout as (body & Hreq & Hout). cbv zeta in Hout.
  destruct (smtp w _) as [e|] eqn:Hsmtp; destruct Hout as [-> Hdel]; cbn [fst snd];
    (split; [exact Hdb|]); eexists; (split; [exact Hreq|]);
    cbn [mail_to mail_cc mail_subject];
    (split; [now apply enabled_user|]); (split; [reflexivity|]);
    (split; [vm_compute; reflexivity|]); rewrite Hsmtp; (split; [| exact Hdel]).
  - apply (f_equal (fun b => @inr exception _ (Some b))), failed_to_send_successfully.
  - apply (f_equal (fun b => @inr exception _ (Some b))), sent_successfully.
Qed.

Example test_alert_misreads_an_error :
  let w := {| db := NoTable; system_logs := []; ticks := 0;
              clock := Sample.sample_clock;
              smtp := fun _ => Some "login not completed successfully";
              requested := []; delivered := [] |} in
  fst (send_test_admin_alert Sample.cfg_mail w) = inr (Some true) /\
  delivered (snd (send_test_admin_alert Sample.cfg_mail w)) = [].
Proof. split; vm_compute; reflexivity. Qed.

(** *** The routing tool *)

Lemma length_append (a b : string) :
  String.length (a ++ b) = String.length a + String.length b.
Proof. induction a as [|c a IH]; simpl; [reflexivity | now rewrite IH]. Qed.

Lemma symptoms_preview_long (s : string) :
  50 < len s -> symptoms_preview (Some s) = take 50 s ++ "...".
Proof.
  intros Hlong. unfold symptoms_preview.
  change (default "" (Some s)) with s. cbn [truthy].
  destruct (String.eqb_spec s "") as [-> | _]; [simpl in Hlong; lia|].
  apply Nat.ltb_lt in Hlong. now rewrite Hlong.
Qed.

Lemma symptoms_preview_short (s : string) :
  s <> "" -> len s <= 50 -> symptoms_preview (Some s) = s.
Proof.
  intros Hne Hshort. unfold symptoms_preview, or_else.
  change (default "" (Some s)) with s. cbn [truthy].
  apply String.eqb_neq in Hne. rewrite Hne. cbn [negb andb].
  destruct (Nat.ltb_spec 50 (len s)); [lia | reflexivity].
Qed.

Lemma symptoms_preview_missing (symptoms : option string) :
  truthy symptoms = false -> symptoms_preview symptoms = "None provided".
Proof. intros H. unfold symptoms_preview, or_else. now rewrite H. Qed.

(** X12. [route_patient_to_department] only writes to the log: it stores
    nothing and asks for no notification.  The symptoms it logs are cut
    to their first fifty characters and "...", so the logged text is never
    longer than 53 characters and never empty; symptoms of up to fifty
    characters are logged whole, and missing or empty symptoms as
    "None provided".  Characters are counted as [len] counts them, not
    bytes. *)
Theorem routing_only_logs_a_short_preview (specialty name : string)
    (age gender phone email insurance symptoms medical_history : option string)
    (urgency : string) (w : world) :
  let res :=
    route_patient_to_department specialty name age gender phone email insurance
      symptoms medical_history urgency w in
  let preview := symptoms_preview symptoms in
  only_logged w (snd res) /\
  fst res = "Patient " ++ name ++ " routed to " ++ specialty ++ " department with "
            ++ urgency ++ " priority" /\
  last_log_says (snd res) ("🔍 SYMPTOMS: " ++ preview) /\
  len preview <= 53 /\ preview <> "" /\
  (truthy symptoms = false -> preview = "None provided") /\
  (forall s, symptoms = Some s -> s <> "" -> len s <= 50 -> preview = s) /\
  (forall s, symptoms = Some s -> 50 < len s ->
     preview = take 50 s ++ "..." /\ String.prefix (take 50 s) s = true /\
     len (take 50 s) = 50).
Proof.
  intros res preview. subst res preview.
  split; [repeat split|]. split; [reflexivity|].
  split; [apply log_system_message_last|].
  assert (Hcases : truthy symptoms = false \/
                   exists s, symptoms = Some s /\ s <> "" /\
                             (len s <= 50 \/ 50 < len s)).
  { destruct symptoms as [s|]; [| now left].
    destruct (String.eqb_spec s "") as [-> | Hne]; [now left | right].
    exists s. split; [reflexivity|]. split; [exact Hne | lia]. }
  split; [| split; [| split; [| split]]].
  - destruct Hcases as [Hnone | (s & -> & Hne & [Hshort | Hlong])].
    + rewrite symptoms_preview_missing by exact Hnone. simpl. lia.
    + rewrite symptoms_preview_short by assumption. lia.
    + rewrite symptoms_preview_long, len_append, len_take by exact Hlong.
      change (len "...") with 3. lia.
  - destruct Hcases as [Hnone | (s & -> & Hne & [Hshort | Hlong])].
    + rewrite symptoms_preview_missing by exact Hnone. discriminate.
    + now rewrite symptoms_preview_short by assumption.
    + rewrite symptoms_preview_long by exact Hlong. intros H.
      apply (f_equal len) in H. rewrite len_append, len_take in H.
      change (len "...") with 3 in H. change (len "") with 0 in H. lia.
  - apply symptoms_preview_missing.
  - intros s -> Hne Hshort. now apply symptoms_preview_short.
  - intros s -> Hlong. split; [now apply symptoms_preview_long|].
    split; [apply take_prefix | rewrite len_take; lia].
Qed.

(** Fifty-one letters with an accent, two bytes each: the preview keeps
    fifty of them whole. *)
Example preview_counts_characters :
  let e := String (ascii_of_N 195) (String (ascii_of_N 169) "") in
  let s := String.concat "" (repeat e 51) in
  String.length s = 102 /\ len s = 51 /\
  symptoms_preview (Some s) = String.concat "" (repeat e 50) ++ "..." /\
  symptoms_preview (Some (String.concat "" (repeat e 29)))
  = String.concat "" (repeat e 29).
Proof. repeat split; vm_compute; reflexivity. Qed.

(** *** The addresses of a message *)

Lemma split_on_not_nil (sep : ascii) (s : string) : split_on sep s <> [].
Proof.
  induction s as [|c s IH]; simpl; [discriminate|].
  destruct (Ascii.eqb c sep); [discriminate|].
  destruct (split_on sep s); discriminate.
Qed.

Lemma concat_split_on (sep : ascii) (s : string) :
  String.concat (String sep "") (split_on sep s) = s.
Proof.
  induction s as [|c s IH]; simpl; [reflexivity|].
  pose proof (split_on_not_nil sep s) as Hne.
  destruct (Ascii.eqb_spec c sep) as [-> | _].
  - destruct (split_on sep s) as [|piece pieces]; [now destruct Hne|].
    simpl in *. now rewrite IH.
  - destruct (split_on sep s) as [|piece pieces]; [now destruct Hne|].
    destruct pieces; simpl in *; now rewrite <- IH.
Qed.

Lemma split_on_pieces (sep : ascii) (s : string) :
  Forall (fun piece => count_chars (fun c => Ascii.eqb c sep) piece = 0) (split_on sep s).
Proof.
  induction s as [|c s IH]; simpl; [repeat constructor|].
  destruct (Ascii.eqb c sep) eqn:Hc; [constructor; [reflexivity | exact IH]|].
  destruct (split_on sep s) as [|piece pieces]; [repeat constructor; simpl; now rewrite Hc|].
  apply Forall_cons in IH as [Hpiece Hpieces].
  constructor; [simpl; now rewrite Hc, Hpiece | exact Hpieces].
Qed.

Lemma length_split_on (sep : ascii) (s : string) :
  length (split_on sep s) = S (count_chars (fun c => Ascii.eqb c sep) s).
Proof.
  induction s as [|c s IH]; simpl; [reflexivity|].
  pose proof (split_on_not_nil sep s) as Hne.
  destruct (Ascii.eqb c sep); simpl; [now rewrite IH|].
  destruct (split_on sep s) as [|piece pieces]; [now destruct Hne | exact IH].
Qed.

(** X13. The addresses [send_email_message] gives to [sendmail] start
    with [to_email]; without a copy line there is no other.  With a copy
    line, the further addresses are its pieces between the commas, as they
    stand (not trimmed): none holds a comma, there is one more of them
    than commas, and joined by commas they give the copy line back. *)
Theorem recipients_split_the_copy_line (m : mail) :
  List.hd_error (recipients m) = Some (mail_to m) /\
  (truthy (mail_cc m) = false -> recipients m = [mail_to m]) /\
  (forall cc : string, mail_cc m = Some cc -> cc <> "" ->
     String.concat "," (List.tl (recipients m)) = cc /\
     Forall (fun a => count_chars (fun c => Ascii.eqb c ",") a = 0)
            (List.tl (recipients m)) /\
     length (recipients m) = 2 + count_chars (fun c => Ascii.eqb c ",") cc).
Proof.
  unfold recipients. split; [reflexivity|]. split.
  - intros H. now rewrite H.
  - intros cc Hcc Hne. rewrite Hcc. cbn [truthy default].
    apply String.eqb_neq in Hne. rewrite Hne. cbn [negb List.tl length].
    change (default "" (Some cc)) with cc.
    split; [apply concat_split_on|]. split; [apply split_on_pieces|].
    now rewrite length_split_on.
Qed.

Example recipients_are_not_trimmed :
  recipients {| mail_to := "desk@clinic.example"; mail_subject := "s"; mail_body := "b";
                mail_cc := Some "lead@clinic.example, ward@clinic.example" |}
  = ["desk@clinic.example"; "lead@clinic.example"; " ward@clinic.example"].
Proof. reflexivity. Qed.

(** *** What the mail says *)

Lemma substring_refl (x : string) : Substring x x.
Proof.
  exists "", "". simpl. induction x as [|c x IH]; simpl; [reflexivity | now rewrite <- IH].
Qed.

Lemma substring_left (x a b : string) : Substring x a -> Substring x (a ++ b).
Proof.
  intros (before & after & ->). exists before, (after ++ b).
  induction before as [|c before IH]; simpl.
  - induction x as [|c x IHx]; simpl; [reflexivity | now rewrite IHx].
  - now rewrite IH.
Qed.

Lemma substring_right (x a b : string) : Substring x b -> Substring x (a ++ b).
Proof.
  intros (before & after & ->). exists (a ++ before), after.
  induction a as [|c a IH]; simpl; [reflexivity | now rewrite IH].
Qed.



End MailMore.

(** ** What the patterns can extract *)
Section ExtractMore.
Import PyStr Spec Re Extract Props.


(** *** What a match has read *)

Lemma string_app_assoc (a b c : string) : (a ++ b) ++ c = a ++ b ++ c.
Proof. induction a as [|x a IH]; simpl; [reflexivity | now rewrite IH]. Qed.

Lemma string_app_length (a b : string) :
  String.length (a ++ b) = String.length a + String.length b.
Proof. induction a as [|c a IH]; simpl; [reflexivity | now rewrite IH]. Qed.

Lemma consumed_append (x rest : string) : consumed (x ++ rest) rest = x.
Proof.
  unfold consumed. rewrite string_app_length.
  replace (String.length x + String.length rest - String.length rest)
    with (String.length x) by lia.
  induction x as [|c x IH]; simpl.
  - destruct rest; reflexivity.
  - now rewrite IH.
Qed.

Lemma Matches_accepts (ignorecase : bool) (p : pattern) (caps caps' : captures)
    (previous : option ascii) (s rest : string) :
  Matches ignorecase p caps previous s rest caps' ->
  exists x, s = x ++ rest /\ accepts ignorecase p x.
Proof.
  induction 1 as [caps previous s
                 | p caps caps' previous s rest _ _ (x & -> & Hx)
                 | class lo hi p caps caps' previous previous' taken s' rest
                     Hall Hlo Hhi _ _ (x & -> & Hx)
                 | p caps caps' previous s rest _ (x & -> & Hx)
                 | p caps caps' previous s rest _ (x & -> & Hx)].
  - exists "". split; reflexivity.
  - exists x. split; [reflexivity | exact Hx].
  - exists (taken ++ x). split; [now rewrite string_app_assoc|].
    cbn [accepts]. exists taken, x. repeat split; assumption.
  - exists x. split; [reflexivity | exact Hx].
  - exists x. split; [reflexivity | exact Hx].
Qed.


(** *** Trimming *)






















(** *** E-mail addresses *)

Lemma one_char_taken (c : ascii) (taken : string) :
  all_chars (class_matches false [Range c c]) taken = true ->
  1 <= String.length taken ->
  (forall most, Some 1 = Some most -> String.length taken <= most) ->
  taken = String c "".
Proof.
  intros Hall Hlo Hhi. specialize (Hhi 1 eq_refl).
  destruct taken as [|d [|]]; simpl in Hlo, Hhi; try lia.
  simpl in Hall. rewrite andb_true_r in Hall. unfold class_matches in Hall.
  simpl in Hall. rewrite !orb_false_r in Hall.
  unfold in_range, code in Hall. apply andb_true_iff in Hall as [H1 H2].
  apply N.leb_le in H1, H2.
  assert (Heq : N_of_ascii d = N_of_ascii c) by lia.
  apply (f_equal ascii_of_N) in Heq. rewrite !ascii_N_embedding in Heq. now subst.
Qed.




(** *** Telephone numbers *)







Example extracted_fields_of_a_turn :
  let details :=
    extract_patient_details
      "this is Noor, reach me on 555 123-4567 or noor.k@mail.example.org" in
  (details !! "name", details !! "phone", details !! "email")
  = (Some "Noor", Some "555 123-4567", Some "noor.k@mail.example.org").
Proof. vm_compute. reflexivity. Qed.

Lemma last_char_is (before : string) (c : ascii) :
  last_char None before = Some c -> exists start, before = start ++ String c "".
Proof.
  assert (H : forall previous, last_char previous before = Some c ->
                (before = "" /\ previous = Some c) \/
                exists start, before = start ++ String c "").
  { induction before as [|d before IH]; intros previous; simpl.
    - intros ->. now left.
    - intros Hl. right. destruct (IH _ Hl) as [[-> Hd] | (start & ->)].
      + injection Hd as ->. now exists "".
      + now exists (String d start). }
  intros Hl. destruct (H None Hl) as [[_ Hn] | Hs]; [discriminate Hn | exact Hs].
Qed.

(** X18. The second telephone pattern opens with a word boundary before
    its bracket, so in an ASCII transcript a number written
    [(555) 123-4567] is found only where the bracket comes straight after
    a letter, a digit or an underscore: never at the start of the
    transcript, and never after a blank. *)
Theorem bracketed_number_needs_a_word_before (transcript : string) (p : pattern)
    (m : match_result) :
  isascii transcript = true ->
  List.nth_error phone_patterns 1 = Some p ->
  search false p transcript = Some m ->
  exists (start : string) (c : ascii) (number after : string),
    transcript = start ++ String c "" ++ "(" ++ number ++ after /\
    is_word_char c = true /\
    group0 m = "(" ++ number.
Proof.
  intros _ Hp Hsearch. injection Hp as <-. unfold search in Hsearch.
  apply search_from_sound in Hsearch as (before & from & rest & caps' & -> & Hm & ->).
  inversion Hm as [| p0 c0 c0' pv0 s0 r0 Hb Hrest | | |]; subst; clear Hm.
  unfold chr in Hrest.
  inversion Hrest as [| | cl lo hi p1 c1 c1' pv1 pv1' taken s1 r1 Hall Hlo Hhi _ Hdigits
                      | |];
    subst; clear Hrest.
  apply one_char_taken in Hall; [subst taken | assumption..].
  apply Matches_accepts in Hdigits as (number & -> & _).
  unfold at_boundary in Hb. simpl in Hb.
  destruct (last_char None before) as [c|] eqn:Hlast; [| discriminate Hb].
  change (is_word_char "(") with false in Hb. rewrite xorb_false_r in Hb.
  apply last_char_is in Hlast as (start & ->).
  exists start, c, number, rest.
  split; [now rewrite string_app_assoc | split; [exact Hb|]].
  cbn [result_of group0].
  change ("(" ++ number ++ rest) with (("(" ++ number) ++ rest).
  apply consumed_append.
Qed.

Lemma bracketed_number_sample :
  exists (start : string) (c : ascii) (number after : string),
    "call(555) 123-4567 today" = start ++ String c "" ++ "(" ++ number ++ after /\
    is_word_char c = true /\
    "(555) 123-4567" = "(" ++ number.
Proof.
  apply (bracketed_number_needs_a_word_before "call(555) 123-4567 today"
           (nth 1 phone_patterns [])
           {| group0 := "(555) 123-4567"; group1 := "" |}).
  - reflexivity.
  - reflexivity.
  - vm_compute. reflexivity.
Defined.

Example bracketed_number_after_a_blank_is_missed :
  extract_patient_details "my number is (555) 123-4567" !! "phone" = Some "" /\
  extract_patient_details "(555) 123-4567" !! "phone" = Some "" /\
  extract_patient_details "tel(555) 123-4567" !! "phone" = Some "(555) 123-4567".
Proof. repeat split; vm_compute; reflexivity. Qed.

End ExtractMore.

(** ** A chat turn *)
Section SessionMore.
Import PyStr Spec Clinic Tools Session Props.

Lemma add_patient_turn_extends (history : option string) (user_input : string) :
  exists added,
    add_patient_turn history user_input = default "" history ++ added /\
    Substring user_input added.
Proof.
  unfold add_patient_turn. cbv zeta. cbn [truthy].
  destruct (String.eqb_spec (default "" history) "") as [-> | _]; cbn [negb].
  - exists user_input. split; [reflexivity | apply substring_refl].
  - exists (newline ++ "Patient: " ++ user_input). split; [reflexivity|].
    do 2 apply substring_right. apply substring_refl.
Qed.

(** X19. A chat turn never loses what was said: after
    [process_user_message] the conversation history is the old history
    with text added at its end, the patient's message is in the added
    text, and so is the answer whenever the answer is returned.  The
    function always returns, with the answer of the agent or with the
    apology, and leaves the list of messages alone unless it adds the
    patient's message and the answer, in this order. *)
Theorem chat_turn_only_adds (run : runner) (missing : key_error) (user_input : string)
    (s : session) (w : world) :
  let res := process_user_message run missing user_input s w in
  let reply := fst (fst res) in
  let s' := snd (fst res) in
  exists added : string,
    conversation_history s' = Some (default "" (conversation_history s) ++ added) /\
    Substring user_input added /\
    intake_coordinator s' = true /\
    ((reply = apology /\ messages s' = messages s) \/
     (exists earlier,
        messages s = Some earlier /\
        messages s' = Some (earlier ++ [ {| role := "user"; content := user_input |};
                                         {| role := "assistant"; content := reply |} ])%list /\
        Substring reply added)).
Proof.
  intros res reply s'. subst res reply s'. unfold process_user_message. cbv zeta.
  destruct (add_patient_turn_extends (conversation_history s) user_input)
    as (added & Hadded & Hsub).
  cbn [conversation_history intake_coordinator messages].
  match goal with
  | |- context [run ?h ?w1] => destruct (run h w1) as [[e | response] w2]
  end.
  - exists added. cbn [report_failure fst snd conversation_history intake_coordinator
                       messages].
    split; [now rewrite Hadded|]. split; [exact Hsub|]. split; [reflexivity|].
    left. split; reflexivity.
  - exists (added ++ newline ++ "Assistant: " ++ response).
    destruct (messages s) as [earlier|] eqn:Hmessages;
      cbn [report_failure fst snd conversation_history intake_coordinator messages];
      (split; [now rewrite Hadded, string_app_assoc|]);
      (split; [now apply substring_left|]); (split; [reflexivity|]).
    + right. exists earlier. split; [reflexivity|]. split; [reflexivity|].
      apply substring_right. do 2 apply substring_right. apply substring_refl.
    + left. split; reflexivity.
Qed.

(** X20. How a chat turn ends.  The agent is run once, on the history
    with the patient's message added, after the three lines of the log
    that announce the turn.  When that run raises, the apology is
    returned, the error text is the newest log line, the patient's message
    stays in the history and nothing is added to the messages.  When it
    answers and the session has its list of messages, the answer is
    returned and stands in the history under ["Assistant: "].  When it
    answers but the session has no list of messages, the answer is put in
    the history all the same, the apology is returned and the missing key
    is the newest log line.  After the run only the log is written. *)
Theorem chat_turn_outcomes (run : runner) (missing : key_error) (user_input : string)
    (s : session) (w : world) :
  let res := process_user_message run missing user_input s w in
  let reply := fst (fst res) in
  let s' := snd (fst res) in
  let w' := snd res in
  let asked := add_patient_turn (conversation_history s) user_input in
  let before := agent_world user_input s w in
  only_logged w before /\ log_extended w before /\
  last_log_says before "PROCESSING: Running through intake coordinator" /\
  match run asked before with
  | (inl e, after) =>
      reply = apology /\ messages s' = messages s /\
      conversation_history s' = Some asked /\
      only_logged after w' /\
      last_log_says w' ("PROCESSING ERROR: Error processing message: " ++ e)
  | (inr response, after) =>
      conversation_history s' = Some (asked ++ newline ++ "Assistant: " ++ response) /\
      only_logged after w' /\
      match messages s with
      | Some earlier =>
          reply = response /\
          messages s' = Some (earlier ++ [ {| role := "user"; content := user_input |};
                                           {| role := "assistant"; content := response |} ])%list /\
          last_log_says w'
            ("PROCESSING: Generated response: " ++ take 50 response ++ "...")
      | None =>
          reply = apology /\ messages s' = None /\
          last_log_says w'
            ("PROCESSING ERROR: Error processing message: " ++ missing "messages")
      end
  end.
Proof.
  intros res reply s' w' asked before. subst res reply s' w'.
  split; [subst before; unfold agent_world; cbv zeta;
          destruct (intake_coordinator s); repeat split|].
  split; [subst before; unfold agent_world; cbv zeta;
          destruct (intake_coordinator s); repeat apply log_extended_log_after;
          apply log_extended_refl|].
  split; [apply log_system_message_last|].
  unfold process_user_message. cbv zeta. fold asked.
  cbn [conversation_history intake_coordinator messages].
  change (log_system_message "PROCESSING: Running through intake coordinator" _)
    with before.
  destruct (run asked before) as [[e | response] after].
  - cbn [report_failure fst snd conversation_history messages].
    split; [reflexivity|]. split; [reflexivity|]. split; [reflexivity|].
    split; [repeat split | apply log_system_message_last].
  - destruct (messages s) as [earlier|];
      cbn [report_failure fst snd conversation_history messages].
    + split; [reflexivity|]. split; [repeat split|].
      split; [reflexivity|]. split; [reflexivity | apply log_system_message_last].
    + split; [reflexivity|]. split; [repeat split|].
      split; [reflexivity|]. split; [reflexivity | apply log_system_message_last].
Qed.

(** An agent that raises once the log holds ten lines: the first turn is
    answered, a later one ends with the apology. *)
Example agent_that_raises_later :
  let run : runner := fun _ w =>
    if (length (system_logs w) <? 10)%nat then (inr "Tell me more.", w)
    else (inl "Connection error.", w) in
  let s0 := {| conversation_history := None; intake_coordinator := false;
               messages := Some [] |} in
  let missing : key_error := fun key => "'" ++ key ++ "'" in
  let '(first, s1, w1) := process_user_message run missing "I'm Maria" s0 Sample.world_ready in
  let '(second, s2, w2) := process_user_message run missing "chest pain" s1 w1 in
  let '(third, s3, w3) := process_user_message run missing "since Monday" s2 w2 in
  first = "Tell me more." /\ second = "Tell me more." /\ third = apology /\
  option_map (@length message) (messages s3) = Some 4 /\
  last (system_logs w3)
  = Some "[10:00:10] PROCESSING ERROR: Error processing message: Connection error.".
Proof. vm_compute. repeat split. Qed.

(** Two turns with an agent that repeats a fixed line. *)
Example two_turns :
  let run : runner := fun _ w => (inr "Which symptoms do you have?", w) in
  let s0 := {| conversation_history := None; intake_coordinator := false;
               messages := Some [] |} in
  let missing : key_error := fun key => "'" ++ key ++ "'" in
  let '(_, s1, w1) := process_user_message run missing "I'm Maria" s0 Sample.world_ready in
  let '(reply, s2, _) := process_user_message run missing "chest pain" s1 w1 in
  reply = "Which symptoms do you have?" /\
  conversation_history s2
  = Some ("I'm Maria" ++ newline ++ "Assistant: Which symptoms do you have?"
          ++ newline ++ "Patient: chest pain"
          ++ newline ++ "Assistant: Which symptoms do you have?") /\
  option_map (map role) (messages s2) = Some ["user"; "assistant"; "user"; "assistant"].
Proof. vm_compute. repeat split. Qed.

End SessionMore.

(** ** Opening the store, then storing *)
Section OpenThenStore.
Import PyStr Spec Clinic Tools Props.

(** X21. What [init_database] leaves for [save_patient_to_database].  On
    a new file it answers [True] and creates the table: the first record
    stored then gets the number 1.  On a file that holds the table and can
    be written it answers [True] and keeps all rows, and the save adds
    its record.  On a file that holds the table but cannot be written it
    answers [True] as well, and the save then fails: the answer [True] does
    not promise that records can be stored.  On a file that cannot be
    opened, that is not a database, or that cannot be written and holds no
    table, it answers [False], and the later save fails with the reason.
    Running it a second time changes nothing. *)
Theorem init_database_prepares_the_store (cfg : config)
    (name : string) (age gender phone email insurance symptoms medical_history : option string)
    (specialty urgency : string) (w : world) :
  let opened := init_database cfg w in
  let saved :=
    save_patient_to_database cfg name age gender phone email insurance symptoms
      medical_history specialty urgency (snd opened) in
  let stored :=
    "✅ Patient record for " ++ name ++ " successfully stored and admin notified" in
  match db w with
  | Unusable reason =>
      fst opened = false /\ db (snd opened) = db w /\
      fst saved = "Failed to store patient record: " ++ reason /\
      db (snd saved) = db w
  | NoTable =>
      fst opened = true /\ db (snd opened) = Patients [] 0 /\
      fst saved = stored /\
      exists r, db (snd saved) = Patients [r] 1 /\ id r = 1%Z /\ Clinic.name r = name
  | Patients rows sequence =>
      fst opened = true /\ db (snd opened) = db w /\
      fst saved = stored /\
      exists r, db (snd saved) = Patients (rows ++ [r]) (id r) /\ Clinic.name r = name
  | ReadOnly (Some rows) =>
      fst opened = true /\ db (snd opened) = db w /\
      fst saved
      = "Failed to store patient record: attempt to write a readonly database" /\
      db (snd saved) = db w
  | ReadOnly None =>
      fst opened = false /\ db (snd opened) = db w /\
      fst saved = "Failed to store patient record: no such table: patients" /\
      db (snd saved) = db w
  | Corrupt reason =>
      fst opened = false /\ db (snd opened) = db w /\
      fst saved = "Failed to store patient record: " ++ reason /\
      db (snd saved) = db w
  end /\
  db (snd (init_database cfg (snd opened))) = db (snd opened).
Proof.
  intros opened saved stored. split; [| apply init_database_idempotent].
  pose proof (init_database_spec cfg w) as Hinit. cbv zeta in Hinit. fold opened in Hinit.
  destruct (db w) as [reason| |rows sequence|[rows|]|reason] eqn:Hdb.
  - destruct Hinit as (Hfalse & Hsame & _). split; [exact Hfalse|].
    split; [exact Hsame|]. subst saved. unfold save_patient_to_database.
    cbn [now fst snd log_system_message with_logs with_ticks db]. rewrite Hsame.
    cbn [insert_patient fst snd db log_system_message now with_logs with_ticks].
    split; [reflexivity | exact Hsame].
  - destruct Hinit as (Htrue & Hready). split; [exact Htrue|]. split; [exact Hready|].
    pose proof (save_patient_to_database_spec cfg name age gender phone email insurance
                  symptoms medical_history specialty urgency (snd opened) [] 0%Z Hready)
      as Hsave.
    cbv zeta in Hsave. fold saved in Hsave. destruct Hsave as (Hmsg & Hdb' & _).
    split; [exact Hmsg|]. eexists. split; [exact Hdb'|]. split; reflexivity.
  - destruct Hinit as (Htrue & Hready). split; [exact Htrue|]. split; [exact Hready|].
    pose proof (save_patient_to_database_spec cfg name age gender phone email insurance
                  symptoms medical_history specialty urgency (snd opened) rows sequence
                  Hready) as Hsave.
    cbv zeta in Hsave. fold saved in Hsave. destruct Hsave as (Hmsg & Hdb' & _).
    split; [exact Hmsg|]. eexists. split; [exact Hdb'|]. reflexivity.
  - destruct Hinit as (Htrue & Hsame). split; [exact Htrue|].
    split; [exact Hsame|]. subst saved. unfold save_patient_to_database.
    cbn [now fst snd log_system_message with_logs with_ticks db]. rewrite Hsame.
    cbn [insert_patient fst snd db log_system_message now with_logs with_ticks].
    split; [reflexivity | exact Hsame].
  - destruct Hinit as (Hfalse & Hsame & _). split; [exact Hfalse|].
    split; [exact Hsame|]. subst saved. unfold save_patient_to_database.
    cbn [now fst snd log_system_message with_logs with_ticks db]. rewrite Hsame.
    cbn [insert_patient fst snd db log_system_message now with_logs with_ticks].
    split; [reflexivity | exact Hsame].
  - destruct Hinit as (Hfalse & Hsame & _). split; [exact Hfalse|].
    split; [exact Hsame|]. subst saved. unfold save_patient_to_database.
    cbn [now fst snd log_system_message with_logs with_ticks db]. rewrite Hsame.
    cbn [insert_patient fst snd db log_system_message now with_logs with_ticks].
    split; [reflexivity | exact Hsame].
Qed.

(** A file that holds the table and cannot be written: [init_database]
    answers [True], the record is not stored and no mail is requested. *)
Example opened_but_not_writable :
  let w := {| db := ReadOnly (Some Cases.two_rows); system_logs := []; ticks := 0;
              clock := Sample.sample_clock; smtp := fun _ => None;
              requested := []; delivered := [] |} in
  let opened := init_database Sample.cfg_mail w in
  let saved := save_patient_to_database Sample.cfg_mail "Maria" (Some "34") None None
                 None None (Some "severe chest pain") None "emergency" "critical"
                 (snd opened) in
  fst opened = true /\
  fst saved = "Failed to store patient record: attempt to write a readonly database" /\
  db (snd saved) = ReadOnly (Some Cases.two_rows) /\
  requested (snd saved) = [] /\
  fst (get_all_patients (snd saved)) = newest_first Cases.two_rows.
Proof. vm_compute. repeat split. Qed.

End OpenThenStore.

(** ** The monitoring panel and a new session *)
Section PanelMore.
Import PyStr Spec Clinic Tools Session Panel Props.





(** A refused notification is logged without the word the panel looks
    for: the panel shows both of its lines in the plain colour. *)
Example refused_mail_is_not_shown_red :
  let w := {| db := Patients [] 0; system_logs := []; ticks := 0;
              clock := Sample.sample_clock; smtp := fun _ => Some "Connection refused";
              requested := []; delivered := [] |} in
  let w' := snd (save_patient_to_database Sample.cfg_mail "Maria" (Some "34") None None
                   None None (Some "severe chest pain") None "emergency" "critical" w) in
  delivered w' = [] /\
  List.filter (contains "Failed to send email") (log_container w')
  = [ html "<span style=`color: #374151;`>"
      ++ "[10:00:07] ADMIN: ❌ Failed to send email: Connection refused</span>";
      html "<span style=`color: #374151;`>"
      ++ "[10:00:08] ADMIN EMAIL: Failed to send email: Connection refused</span>" ].
Proof. cbv zeta. split; vm_compute; reflexivity. Qed.

(** X23. "New Patient Session" forgets the conversation and nothing else:
    the store, the mail and the lines of the log are kept, and the next
    chat turn is the turn of a first visit.  Whatever was said before, the
    history after that turn is the new message alone, followed by the
    answer when the agent gave one, and the messages on the page are the
    new message and its answer. *)
Theorem new_session_forgets_the_conversation (run : runner) (missing : key_error)
    (user_input : string) (s : session) (w : world) :
  let fresh := new_patient_session s w in
  let res := process_user_message run missing user_input (fst fresh) (snd fresh) in
  let reply := fst (fst res) in
  let s' := snd (fst res) in
  only_logged w (snd fresh) /\ log_extended w (snd fresh) /\
  last_log_says (snd fresh) "SYSTEM: New patient session started" /\
  res = process_user_message run missing user_input
          {| conversation_history := None; intake_coordinator := intake_coordinator s;
             messages := Some [] |} (snd fresh) /\
  ((reply = apology /\ conversation_history s' = Some user_input /\
    messages s' = Some []) \/
   (conversation_history s' = Some (user_input ++ newline ++ "Assistant: " ++ reply) /\
    messages s' = Some [ {| role := "user"; content := user_input |};
                         {| role := "assistant"; content := reply |} ])).
Proof.
  intros fresh res reply s'. subst fresh res reply s'.
  unfold new_patient_session. cbv zeta. cbn [fst snd].
  split; [repeat split|].
  split; [apply log_extended_log|].
  split; [apply log_system_message_last|].
  split; [reflexivity|].
  unfold process_user_message. cbv zeta.
  cbn [conversation_history intake_coordinator messages].
  change (add_patient_turn (Some "") user_input) with user_input.
  match goal with
  | |- context [run user_input ?w1] => destruct (run user_input w1) as [[e | response] w2]
  end; cbn [report_failure fst snd conversation_history messages app].
  - left. repeat split.
  - right. split; reflexivity.
Qed.

End PanelMore.
